(** * The flashcard collection assembler ([cards/build_english.py])

    A shallow embedding of the build script that concatenates the section
    files [sections/sec_*.json] into [english.json], giving every card a fresh id.

    The script is a straight-line batch program:

    - [files = sorted(glob.glob(os.path.join(base, "sec_*.json")))]
    - a loop that [json.load]s every file and [extend]s [cards] with it
    - a loop [for i, c in enumerate(cards, 1): c["id"] = i]
    - [json.dump(cards, fh, ensure_ascii=False, indent=2)] into [out]
    - a [print] of the summary line.

    Python values are modelled as the values [json.load] can return, strings
    as sequences of code points, dictionaries as insertion-ordered
    association lists, exceptions as an error monad over the state of the
    destination file and of standard output.  Resource exhaustion
    (MemoryError, RecursionError) is outside the model. *)

From Stdlib Require Import NArith ZArith List Lia.
From Stdlib Require Import Strings.Ascii Strings.String Strings.Byte.
From Stdlib Require Import DecimalString.
From Stdlib Require DecimalPos.
From stdpp Require Import base decidable option numbers list sorting.

#[local] Set Warnings "-register-all".

Local Open Scope N_scope.

(** ** Strings *)

(** A Python [str] is a sequence of Unicode code points. *)
Definition char : Type := N.
Definition str : Type := list char.

(** ASCII literals of the source, as code points. *)
Definition lit (s : string) : str := map N_of_ascii (list_ascii_of_string s).

(** [a < b] on [str]: code points are compared left to right and a proper
    prefix is smaller. *)
Fixpoint str_lt (a b : str) : bool :=
  match a, b with
  | _, [] => false
  | [], _ :: _ => true
  | x :: a', y :: b' =>
      if x <? y then true else if y <? x then false else str_lt a' b'
  end.

(** The order [sorted] arranges a list in: [a] may stay before [b] unless
    [b < a]. *)
Definition str_le (a b : str) : Prop := str_lt b a = false.

#[global] Instance str_le_dec (a b : str) : Decision (str_le a b).
Proof. unfold str_le. apply _. Defined.

(** ** Values *)

(** A float is only ever written back by [json.dump]; it is carried as the
    text [json.dump] writes for it ([float.__repr__], and [NaN], [Infinity],
    [-Infinity] for the three special values). *)
Record pyfloat : Type := Float { float_repr : str }.

(** The values [json.load] returns. A [dict] keeps its keys in insertion
    order. *)
Inductive value : Type :=
| VNone
| VBool (b : bool)
| VInt (n : Z)
| VFloat (x : pyfloat)
| VStr (s : str)
| VList (l : list value)
| VDict (d : list (str * value)).

Abbreviation dict := (list (str * value)) (only parsing).

(** [d.get(k)] *)
Fixpoint dict_get (k : str) (d : dict) : option value :=
  match d with
  | [] => None
  | (k', v') :: d' => if decide (k' = k) then Some v' else dict_get k d'
  end.

(** [d[k] = v]: an existing key keeps its place and takes the new value, a
    new key goes last. *)
Fixpoint dict_set (k : str) (v : value) (d : dict) : dict :=
  match d with
  | [] => [(k, v)]
  | (k', v') :: d' =>
      if decide (k' = k) then (k', v) :: d' else (k', v') :: dict_set k v d'
  end.

(** ** Exceptions *)

Inductive exn : Type :=
| OSError             (* open: missing file, directory, permission *)
| UnicodeDecodeError  (* the file is not UTF-8 *)
| JSONDecodeError     (* the text is not a JSON document *)
| TypeError
| UnicodeEncodeError. (* a lone surrogate cannot be written as UTF-8 *)

Inductive result (A : Type) : Type :=
| Ok (a : A)
| Raise (e : exn).
Arguments Ok {A} a.
Arguments Raise {A} e.

#[global] Instance result_ret : MRet result := fun A a => Ok a.
#[global] Instance result_bind : MBind result := fun A B k r =>
  match r with
  | Ok a => k a
  | Raise e => Raise e
  end.

(** ** Operations on values used by the script *)

(** [iter(v)]: what a [for] loop, or [list.extend], draws from [v]. A list
    gives its elements, a dict its keys, a str its characters; the other
    values are not iterable. *)
Definition iter (v : value) : result (list value) :=
  match v with
  | VList l => Ok l
  | VDict d => Ok (map (fun kv => VStr (fst kv)) d)
  | VStr s => Ok (map (fun c => VStr [c]) s)
  | VNone | VBool _ | VInt _ | VFloat _ => Raise TypeError
  end.

(** [c[k] = v] with a str key [k]: only a dict supports it. *)
Definition setitem (c : value) (k : str) (v : value) : result value :=
  match c with
  | VDict d => Ok (VDict (dict_set k v d))
  | VNone | VBool _ | VInt _ | VFloat _ | VStr _ | VList _ => Raise TypeError
  end.

(** [cards.extend(x)] *)
Definition extend (cards : list value) (x : value) : result (list value) :=
  xs ← iter x; Ok (cards ++ xs).

(** The second loop: [for i, c in enumerate(cards, start): c["id"] = i].
    The list that results holds the cards after the assignment. *)
Fixpoint renumber (start : Z) (cards : list value) : result (list value) :=
  match cards with
  | [] => Ok []
  | c :: rest =>
      c' ← setitem c (lit "id") (VInt start);
      rest' ← renumber (start + 1) rest;
      Ok (c' :: rest')
  end.

(** ** Paths, [fnmatch], [glob] and [sorted] *)

Definition sep : char := 47.

(** [posixpath.join(a, b)]: an absolute [b] replaces [a]; otherwise [b]
    is appended, after a separator unless [a] is empty or ends with one. *)
Definition path_join (a b : str) : str :=
  if match b with c :: _ => c =? sep | [] => false end then b
  else
    match last a with
    | None => a ++ b
    | Some z => if z =? sep then a ++ b else a ++ [sep] ++ b
    end.

(** [p[:i], p[i:]] for [i = p.rfind('/') + 1] *)
Fixpoint rsplit_sep (p : str) : str * str :=
  match p with
  | [] => ([], [])
  | c :: p' =>
      let '(h, t) := rsplit_sep p' in
      match h with
      | _ :: _ => (c :: h, t)
      | [] => if c =? sep then ([c], t) else ([], c :: t)
      end
  end.

(** [s.lstrip('/')] and [s.rstrip('/')] *)
Fixpoint lstrip_sep (s : str) : str :=
  match s with
  | c :: s' => if c =? sep then lstrip_sep s' else s
  | [] => []
  end.

Definition rstrip_sep (s : str) : str := rev (lstrip_sep (rev s)).

(** [posixpath.split(p)] *)
Definition path_split (p : str) : str * str :=
  let '(head, tail) := rsplit_sep p in
  if forallb (fun c => c =? sep) head then (head, tail)
  else (rstrip_sep head, tail).

(** [fnmatch] on a POSIX system (case is kept), for patterns made of
    literal characters, [*] and [?]; the whole name must match. Bracket
    classes are not modelled: the script's pattern has none. *)
Fixpoint fnmatch (pat : str) : str -> bool :=
  match pat with
  | [] => fun name => match name with [] => true | _ :: _ => false end
  | p :: pat' =>
      if p =? 42 (* * *) then
        fix star (name : str) : bool :=
          fnmatch pat' name ||
          match name with [] => false | _ :: name' => star name' end
      else if p =? 63 (* ? *) then
        fun name => match name with [] => false | _ :: name' => fnmatch pat' name' end
      else
        fun name =>
          match name with
          | [] => false
          | c :: name' => (c =? p) && fnmatch pat' name'
          end
  end.

(** [glob.has_magic] *)
Definition has_magic (s : str) : bool :=
  existsb (fun c => (c =? 42) || (c =? 63) || (c =? 91)) s.

(** [glob._ishidden] *)
Definition ishidden (s : str) : bool :=
  match s with
  | c :: _ => c =? 46
  | [] => false
  end.

(** What the script reads from its surroundings: the entries of a
    directory as the system enumerates them ([None] when [os.scandir]
    raises [OSError]: the directory is missing, is not a directory or may
    not be read), what opening a path and [json.load]ing it gives, and
    whether the destination can be opened for writing. *)
Record env : Type := Env {
  scandir : str -> option (list str);
  load_json : str -> result value;
  out_openable : bool
}.

(** [glob._glob1]: the entries of [dirname] that match [pattern]. An
    [OSError] from [os.scandir] is caught in [glob._iterdir] and leaves no
    entry. *)
Definition glob1 (e : env) (dirname pattern : str) : list str :=
  let names := match scandir e dirname with
               | Some ns => ns
               | None => []
               end in
  let names := if ishidden pattern then names
               else filter (fun x => ishidden x = false) names in
  filter (fun x => fnmatch pattern x = true) names.

(** [glob.glob(pathname)], the branch for a pathname whose directory part
    has no magic character and whose last component has some. *)
Definition glob (e : env) (pathname : str) : list str :=
  let '(dirname, basename) := path_split pathname in
  map (path_join dirname) (glob1 e dirname basename).

(** [sorted(l)] on a list of [str]: a stable sort into ascending order. *)
Definition sorted (l : list str) : list str := merge_sort str_le l.

(** ** The script's constants *)

Definition base : str := lit "/Users/israasaleh/flashcard-system/cards/sections".
Definition out : str := lit "/Users/israasaleh/flashcard-system/cards/english.json".

(** ** The script, up to the dataset *)

(** [files = sorted(glob.glob(os.path.join(base, "sec_*.json")))] *)
Definition files (e : env) : list str :=
  sorted (glob e (path_join base (lit "sec_*.json"))).

(** [for f in files: with open(f) as fh: cards.extend(json.load(fh))],
    started with [cards]. *)
Fixpoint load_sections (e : env) (cards : list value) (fs : list str)
  : result (list value) :=
  match fs with
  | [] => Ok cards
  | f :: rest =>
      x ← load_json e f;
      cards' ← extend cards x;
      load_sections e cards' rest
  end.

(** The value of [cards] when the script reaches the write. *)
Definition build_cards (e : env) : result (list value) :=
  cards ← load_sections e [] (files e); renumber 1 cards.

(** ** [json.dump(cards, fh, ensure_ascii=False, indent=2)] *)

(** [int.__repr__] *)
Definition repr_int (n : Z) : str := lit (NilZero.string_of_int (Z.to_int n)).

Definition hex_digit (n : N) : char :=
  if n <? 10 then 48 + n else 87 + n.

(** The replacement [json.encoder.ESCAPE_DCT] gives a character matched by
    [ESCAPE], and the character itself when [ESCAPE] does not match it. *)
Definition escape_char (c : char) : str :=
  if c =? 34 then [92; 34]
  else if c =? 92 then [92; 92]
  else if c =? 10 then [92; 110]
  else if c =? 13 then [92; 114]
  else if c =? 9 then [92; 116]
  else if c =? 8 then [92; 98]
  else if c =? 12 then [92; 102]
  else if c <? 32 then [92; 117; 48; 48; hex_digit (c / 16); hex_digit (c mod 16)]
  else [c].

(** [json.encoder.encode_basestring] *)
Definition encode_basestring (s : str) : str :=
  [34] ++ flat_map escape_char s ++ [34].

(** ['\n' + ' ' * (2 * level)] *)
Definition newline_indent (level : nat) : str :=
  10 :: repeat 32 (2 * level)%nat.

(** [separator.join(items)] *)
Fixpoint join_str (separator : str) (items : list str) : str :=
  match items with
  | [] => []
  | [x] => x
  | x :: rest => x ++ separator ++ join_str separator rest
  end.

(** The text the encoder produces for [v] nested [level] deep, with
    [indent=2] and the separators [","] and [": "]. *)
Fixpoint encode (level : nat) (v : value) : str :=
  match v with
  | VNone => lit "null"
  | VBool true => lit "true"
  | VBool false => lit "false"
  | VInt n => repr_int n
  | VFloat x => float_repr x
  | VStr s => encode_basestring s
  | VList [] => lit "[]"
  | VList l =>
      lit "[" ++ newline_indent (S level)
      ++ join_str (lit "," ++ newline_indent (S level))
           (map (encode (S level)) l)
      ++ newline_indent level ++ lit "]"
  | VDict [] => lit "{}"
  | VDict d =>
      lit "{" ++ newline_indent (S level)
      ++ join_str (lit "," ++ newline_indent (S level))
           (map (fun kv => encode_basestring (fst kv) ++ lit ": "
                           ++ encode (S level) (snd kv)) d)
      ++ newline_indent level ++ lit "}"
  end.

(** The whole text written for [cards]. *)
Definition dumps (cards : list value) : str := encode 0 (VList cards).

(** ** UTF-8 *)

Definition byte_of (n : N) : byte :=
  match Byte.of_N n with
  | Some b => b
  | None => x00
  end.

(** The bytes of one code point; a surrogate has none. *)
Definition utf8_char (c : char) : option (list byte) :=
  if c <? 128 then Some [byte_of c]
  else if c <? 2048 then
    Some [byte_of (192 + c / 64); byte_of (128 + c mod 64)]
  else if c <? 65536 then
    if (55296 <=? c) && (c <=? 57343) then None
    else Some [byte_of (224 + c / 4096); byte_of (128 + (c / 64) mod 64);
               byte_of (128 + c mod 64)]
  else if c <? 1114112 then
    Some [byte_of (240 + c / 262144); byte_of (128 + (c / 4096) mod 64);
          byte_of (128 + (c / 64) mod 64); byte_of (128 + c mod 64)]
  else None.

(** [s.encode("utf-8")]; [None] stands for [UnicodeEncodeError]. *)
Fixpoint utf8 (s : str) : option (list byte) :=
  match s with
  | [] => Some []
  | c :: s' =>
      match utf8_char c, utf8 s' with
      | Some bs, Some bs' => Some (bs ++ bs')
      | _, _ => None
      end
  end.

(** ** The script as a program over its effects *)

(** The destination file: missing, holding some bytes, or left cut short
    by a write that failed part-way (what it holds then is not modelled). *)
Inductive file_state : Type :=
| Absent
| Holds (content : list byte)
| Torn.

(** What the script can change: the destination file and the lines printed
    on standard output. *)
Record world : Type := World {
  out_file : file_state;
  stdout : list str
}.

Definition prog (A : Type) : Type := world -> result A * world.

#[global] Instance prog_ret : MRet prog := fun A a w => (Ok a, w).
#[global] Instance prog_bind : MBind prog := fun A B k m w =>
  match m w with
  | (Ok a, w') => k a w'
  | (Raise x, w') => (Raise x, w')
  end.

(** A step that touches neither the file nor the output. *)
Definition lift {A} (r : result A) : prog A := fun w => (r, w).

(** [with open(out, "w", encoding="utf-8") as fh: json.dump(cards, fh, ...)]:
    opening truncates the file, then the text is written. *)
Definition write_out (e : env) (cards : list value) : prog unit := fun w =>
  if out_openable e then
    match utf8 (dumps cards) with
    | Some bytes => (Ok tt, World (Holds bytes) (stdout w))
    | None => (Raise UnicodeEncodeError, World Torn (stdout w))
    end
  else (Raise OSError, w).

(** [print(line)] *)
Definition print (line : str) : prog unit := fun w =>
  (Ok tt, World (out_file w) (stdout w ++ [line])).

(** [f"Assembled {len(cards)} cards into {out}"] *)
Definition summary (cards : list value) : str :=
  lit "Assembled " ++ repr_int (Z.of_nat (length cards))
  ++ lit " cards into " ++ out.

(** The script. *)
Definition main (e : env) : prog unit :=
  cards ← lift (build_cards e);
  _ ← write_out e cards;
  print (summary cards).

(** How a run ends: exit status 0, or 1 after an exception nobody caught. *)
Record outcome : Type := Outcome {
  exit_code : Z;
  raised : option exn;
  final : world
}.

Definition run (e : env) (w : world) : outcome :=
  match main e w with
  | (Ok _, w') => Outcome 0 None w'
  | (Raise x, w') => Outcome 1 (Some x) w'
  end.

(** ** Notions the specification is stated with *)

(** The entries of the sections directory; none when it cannot be listed. *)
Definition entries (e : env) : list str :=
  match scandir e base with
  | Some ns => ns
  | None => []
  end.

(** A section file name: [sec_], anything, [.json]. *)
Definition section_name (name : str) : Prop :=
  exists mid, name = lit "sec_" ++ mid ++ lit ".json".

(** A value that is an object (a Python [dict]). *)
Definition is_dict (v : value) : bool :=
  match v with
  | VDict _ => true
  | _ => false
  end.

(** The [id] of a card, when it is an object that has one. *)
Definition card_id (c : value) : option value :=
  match c with
  | VDict d => dict_get (lit "id") d
  | _ => None
  end.

(** The fields of a record other than [id], in the record's order. *)
Definition payload (d : dict) : dict :=
  filter (fun kv => fst kv <> lit "id") d.

(** A partition file that holds an array of objects. *)
Definition records (p : list dict) : value := VList (map VDict p).

(** The files discovered load, in order, to the given partitions. *)
Definition partitions (e : env) (ps : list (list dict)) : Prop :=
  Forall2 (fun f p => load_json e f = Ok (records p)) (files e) ps.

(** The same directories, each listed in some order. *)
Definition same_entries (e1 e2 : env) : Prop :=
  forall d,
    match scandir e1 d, scandir e2 d with
    | Some a, Some b => a ≡ₚ b
    | None, None => True
    | _, _ => False
    end.

(** The cards of the partitions, in order, each with its position as [id]. *)
Definition numbered (ps : list (list dict)) : list value :=
  imap (fun i d => VDict (dict_set (lit "id") (VInt (Z.of_nat i + 1)) d))
    (concat ps).

(** ** Sample surroundings *)

Definition section_path (name : str) : str := base ++ lit "/" ++ name.

(** A sections directory that lists the given files in the given order,
    each holding the given document; the destination can be written. *)
Definition dir_env (sections : list (str * value)) : env :=
  Env (fun d => if decide (d = base) then Some (map fst sections) else None)
      (fun f =>
         match list_find (fun kv => section_path (fst kv) = f) sections with
         | Some (_, kv) => Ok (snd kv)
         | None => Raise OSError
         end)
      true.

(** Partition A = [[{"term":"hablar","id":99}]], partition B =
    [[{"term":"comer"},{"term":"vivir","id":5}]], listed B first. *)
Definition partition_A : list dict :=
  [[(lit "term", VStr (lit "hablar")); (lit "id", VInt 99)]].
Definition partition_B : list dict :=
  [[(lit "term", VStr (lit "comer"))];
   [(lit "term", VStr (lit "vivir")); (lit "id", VInt 5)]].
Definition scenario_env : env :=
  dir_env [(lit "sec_02.json", records partition_B);
           (lit "sec_01.json", records partition_A)].

(** The same files, with every directory listed backwards. *)
Definition relisted (e : env) : env :=
  Env (fun d => option_map (@rev str) (scandir e d))
      (load_json e) (out_openable e).

(** No sections directory at all. *)
Definition missing_env : env :=
  Env (fun _ => None) (fun _ => Raise OSError) true.



(** One section file whose array holds a string among its cards. *)
Definition string_card_env : env :=
  dir_env [(lit "sec_01.json",
            VList [VDict [(lit "term", VStr (lit "hablar"))];
                   VStr (lit "comer")])].

(** One section file that holds the empty array. *)
Definition empty_array_env : env := dir_env [(lit "sec_01.json", VList [])].

(** A world where the destination already holds something. *)
Definition old_world : world := World (Holds [x6f; x6c; x64]) [].

(** ** The conjugation tables of [cards/gen2.py] *)

(** The accented letters of the source, as code points. *)
Definition a_acute : char := 225.
Definition e_acute : char := 233.
Definition i_acute : char := 237.
Definition o_acute : char := 243.
Definition u_acute : char := 250.

(** The keys ["tú"] and ["él"]. *)
Definition tu : str := lit "t" ++ [u_acute].
Definition el : str := e_acute :: lit "l".

(** [ar_conj(root)] *)
Definition ar_conj (root : str) : value :=
  VDict
    [(lit "present",
      VDict [(lit "yo", VStr (root ++ lit "o"));
             (tu, VStr (root ++ lit "as"));
             (el, VStr (root ++ lit "a"));
             (lit "nosotros", VStr (root ++ lit "amos"));
             (lit "vosotros", VStr (root ++ a_acute :: lit "is"));
             (lit "ellos", VStr (root ++ lit "an"))]);
     (lit "preterite",
      VDict [(lit "yo", VStr (root ++ [e_acute]));
             (tu, VStr (root ++ lit "aste"));
             (el, VStr (root ++ [o_acute]));
             (lit "nosotros", VStr (root ++ lit "amos"));
             (lit "vosotros", VStr (root ++ lit "asteis"));
             (lit "ellos", VStr (root ++ lit "aron"))]);
     (lit "imperfect",
      VDict [(lit "yo", VStr (root ++ lit "aba"));
             (tu, VStr (root ++ lit "abas"));
             (el, VStr (root ++ lit "aba"));
             (lit "nosotros", VStr (root ++ a_acute :: lit "bamos"));
             (lit "vosotros", VStr (root ++ lit "abais"));
             (lit "ellos", VStr (root ++ lit "aban"))])].

(** [er_conj(root)] *)
Definition er_conj (root : str) : value :=
  VDict
    [(lit "present",
      VDict [(lit "yo", VStr (root ++ lit "o"));
             (tu, VStr (root ++ lit "es"));
             (el, VStr (root ++ lit "e"));
             (lit "nosotros", VStr (root ++ lit "emos"));
             (lit "vosotros", VStr (root ++ e_acute :: lit "is"));
             (lit "ellos", VStr (root ++ lit "en"))]);
     (lit "preterite",
      VDict [(lit "yo", VStr (root ++ [i_acute]));
             (tu, VStr (root ++ lit "iste"));
             (el, VStr (root ++ lit "i" ++ [o_acute]));
             (lit "nosotros", VStr (root ++ lit "imos"));
             (lit "vosotros", VStr (root ++ lit "isteis"));
             (lit "ellos", VStr (root ++ lit "ieron"))]);
     (lit "imperfect",
      VDict [(lit "yo", VStr (root ++ i_acute :: lit "a"));
             (tu, VStr (root ++ i_acute :: lit "as"));
             (el, VStr (root ++ i_acute :: lit "a"));
             (lit "nosotros", VStr (root ++ i_acute :: lit "amos"));
             (lit "vosotros", VStr (root ++ i_acute :: lit "ais"));
             (lit "ellos", VStr (root ++ i_acute :: lit "an"))])].

(** [ir_conj(root)] *)
Definition ir_conj (root : str) : value :=
  VDict
    [(lit "present",
      VDict [(lit "yo", VStr (root ++ lit "o"));
             (tu, VStr (root ++ lit "es"));
             (el, VStr (root ++ lit "e"));
             (lit "nosotros", VStr (root ++ lit "imos"));
             (lit "vosotros", VStr (root ++ i_acute :: lit "s"));
             (lit "ellos", VStr (root ++ lit "en"))]);
     (lit "preterite",
      VDict [(lit "yo", VStr (root ++ [i_acute]));
             (tu, VStr (root ++ lit "iste"));
             (el, VStr (root ++ lit "i" ++ [o_acute]));
             (lit "nosotros", VStr (root ++ lit "imos"));
             (lit "vosotros", VStr (root ++ lit "isteis"));
             (lit "ellos", VStr (root ++ lit "ieron"))]);
     (lit "imperfect",
      VDict [(lit "yo", VStr (root ++ i_acute :: lit "a"));
             (tu, VStr (root ++ i_acute :: lit "as"));
             (el, VStr (root ++ i_acute :: lit "a"));
             (lit "nosotros", VStr (root ++ i_acute :: lit "amos"));
             (lit "vosotros", VStr (root ++ i_acute :: lit "ais"));
             (lit "ellos", VStr (root ++ i_acute :: lit "an"))])].

(** The tenses and the persons the tables are keyed by. *)
Definition tenses : list str :=
  [lit "present"; lit "preterite"; lit "imperfect"].

Definition persons : list str :=
  [lit "yo"; tu; el; lit "nosotros"; lit "vosotros"; lit "ellos"].

(** [table[tense][person]] when it is there and is a string. *)
Definition form (table : value) (tense person : str) : option str :=
  match table with
  | VDict tenses =>
      match dict_get tense tenses with
      | Some (VDict persons) =>
          match dict_get person persons with
          | Some (VStr s) => Some s
          | _ => None
          end
      | _ => None
      end
  | _ => None
  end.

(** ** Numbered section names *)

(** A decimal digit, and the number a string of digits writes. *)
Definition is_digit (c : char) : bool := (48 <=? c) && (c <=? 57).

Definition digits_value (s : str) : N :=
  fold_left (fun acc c => 10 * acc + (c - 48)) s 0.

(** The name [sec_<digits>.json]. *)
Definition numbered_section (digits : str) : str :=
  lit "sec_" ++ digits ++ lit ".json".

(** A sections directory with stray entries beside the scenario's two. *)
Definition cluttered_env : env :=
  dir_env [(lit ".sec_00.json", VInt 7);
           (lit "sec_02.json", records partition_B);
           (lit "english.json", VNone);
           (lit "sec_01.json", records partition_A);
           (lit "sec_03.txt", VStr (lit "notes"))].

(** The scenario's first file left unreadable. *)
Definition unreadable_env : env :=
  Env (scandir scenario_env)
      (fun f => if decide (f = section_path (lit "sec_01.json"))
                then Raise JSONDecodeError else load_json scenario_env f)
      true.

(** The scenario with a destination that cannot be opened. *)
Definition readonly_env : env :=
  Env (scandir scenario_env) (load_json scenario_env) false.

(** A sections directory that holds the dataset built from the scenario. *)
Definition rebuilt_env : env :=
  dir_env [(lit "sec_01.json",
            VList [VDict [(lit "term", VStr (lit "hablar")); (lit "id", VInt 1)];
                   VDict [(lit "term", VStr (lit "comer")); (lit "id", VInt 2)];
                   VDict [(lit "term", VStr (lit "vivir")); (lit "id", VInt 3)]])].

(** ** Reading an escaped character back *)

(** The character an escaped text starts with, read back, and what
    follows it. *)
Definition unhex (h : char) : N := if h <? 58 then h - 48 else h - 87.

Definition unescape_head (t : str) : option (char * str) :=
  match t with
  | 92 :: 117 :: _ :: _ :: h1 :: h2 :: rest => Some (16 * unhex h1 + unhex h2, rest)
  | 92 :: 34 :: rest => Some (34, rest)
  | 92 :: 92 :: rest => Some (92, rest)
  | 92 :: 110 :: rest => Some (10, rest)
  | 92 :: 114 :: rest => Some (13, rest)
  | 92 :: 116 :: rest => Some (9, rest)
  | 92 :: 98 :: rest => Some (8, rest)
  | 92 :: 102 :: rest => Some (12, rest)
  | 92 :: _ => None
  | c :: rest => Some (c, rest)
  | [] => None
  end.

(** ** What a file contributes *)

(** The file [f] contributes the records [p]: it holds them as an array,
    or it holds the empty object or the empty string and [p] is empty. *)
Definition contributes (e : env) (f : str) (p : list dict) : Prop :=
  load_json e f = Ok (records p) \/
  p = [] /\ (load_json e f = Ok (VDict []) \/ load_json e f = Ok (VStr [])).


(** Three section files, listed out of order: the first in sorted order
    holds the empty object, the other two the scenario's partitions. *)
Definition mixed_env : env :=
  dir_env [(lit "sec_02.json", records partition_B);
           (lit "sec_01.json", VDict []);
           (lit "sec_03.json", records partition_A)].

(** * Properties *)

(** ** The order on strings *)

Module StrOrder.

Lemma lt_irrefl (a : str) : str_lt a a = false.
Proof.
  induction a as [|x a IH]; simpl; [done|].
  by rewrite N.ltb_irrefl.
Qed.

Lemma lt_asym (a b : str) : str_lt a b = true -> str_lt b a = false.
Proof.
  revert b. induction a as [|x a IH]; intros [|y b]; simpl; try done.
  destruct (N.ltb_spec x y), (N.ltb_spec y x); try done; try lia.
  apply IH.
Qed.

Lemma le_antisym (a b : str) : str_le a b -> str_le b a -> a = b.
Proof.
  unfold str_le. revert b.
  induction a as [|x a IH]; intros [|y b]; simpl; try done.
  destruct (N.ltb_spec x y), (N.ltb_spec y x); try done; try lia.
  intros Hba Hab. assert (x = y) as -> by lia.
  f_equal. by apply IH.
Qed.

Lemma le_trans (a b c : str) : str_le a b -> str_le b c -> str_le a c.
Proof.
  unfold str_le. revert b c.
  induction a as [|x a IH]; intros [|y b] [|z c]; simpl; try done.
  destruct (N.ltb_spec y x), (N.ltb_spec x y), (N.ltb_spec z y),
    (N.ltb_spec y z), (N.ltb_spec z x), (N.ltb_spec x z);
    try done; try lia.
  apply IH.
Qed.

Lemma le_total (a b : str) : str_le a b \/ str_le b a.
Proof.
  unfold str_le. destruct (str_lt a b) eqn:E; [|by right].
  left. by apply lt_asym.
Qed.

Lemma le_refl (a : str) : str_le a a.
Proof. apply lt_irrefl. Qed.

#[global] Instance le_Total : Total str_le := le_total.
#[global] Instance le_Transitive : Transitive str_le := le_trans.
#[global] Instance le_AntiSymm : AntiSymm (=) str_le := le_antisym.
#[global] Instance le_Reflexive : Reflexive str_le := le_refl.

(** A common prefix does not count. *)
Lemma lt_app (p a b : str) : str_lt (p ++ a) (p ++ b) = str_lt a b.
Proof.
  induction p as [|x p IH]; simpl; [done|].
  by rewrite N.ltb_irrefl.
Qed.

Lemma le_app (p a b : str) : str_le a b -> str_le (p ++ a) (p ++ b).
Proof. unfold str_le. by rewrite lt_app. Qed.

(** The order is the lexical one: [a < b] when [a] is a proper prefix of
    [b], or at the first place where they differ [a] has the smaller code
    point. *)
Lemma lt_lexical (a b : str) :
  str_lt a b = true <->
  (exists c cs, b = a ++ c :: cs) \/
  (exists p x y a' b', a = p ++ x :: a' /\ b = p ++ y :: b' /\ x < y).
Proof.
  revert b. induction a as [|x a IH]; intros [|y b]; simpl.
  - split; [done|]. intros [(c & cs & ?)|(p & ? & ? & ? & ? & ? & ? & ?)]; [done|].
    by destruct p.
  - split; [|done]. intros _. left. by exists y, b.
  - split; [done|]. intros [(c & cs & ?)|(p & ? & ? & ? & ? & ? & ? & ?)]; [done|].
    by destruct p.
  - destruct (N.ltb_spec x y) as [Hxy|Hxy].
    { split; [|done]. intros _. right. by exists [], x, y, a, b. }
    destruct (N.ltb_spec y x) as [Hyx|Hyx].
    { split; [done|].
      intros [(c & cs & E)|(p & x' & y' & a' & b' & Ea & Eb & Hlt)].
      - injection E as -> _. lia.
      - destruct p as [|z p]; simpl in *.
        + injection Ea as <- _. injection Eb as <- _. lia.
        + injection Ea as <- _. injection Eb as <- _. lia. }
    assert (x = y) as -> by lia. rewrite IH. split.
    + intros [(c & cs & ->)|(p & x' & y' & a' & b' & -> & -> & Hlt)].
      * left. by exists c, cs.
      * right. by exists (y :: p), x', y', a', b'.
    + intros [(c & cs & E)|(p & x' & y' & a' & b' & Ea & Eb & Hlt)].
      * injection E as ->. left. by exists c, cs.
      * destruct p as [|z p]; simpl in *.
        { simplify_eq. lia. }
        simplify_eq. right. by exists p, x', y', a', b'.
Qed.

End StrOrder.

(** ** Discovery *)

Module Discovery.

Lemma fnmatch_nil (name : str) : fnmatch [] name = true <-> name = [].
Proof. by destruct name. Qed.

Lemma fnmatch_literal (c : char) (pat name : str) :
  c <> 42 -> c <> 63 ->
  fnmatch (c :: pat) name = true <->
  exists name', name = c :: name' /\ fnmatch pat name' = true.
Proof.
  intros H1 H2. simpl.
  destruct (N.eqb_spec c 42); [done|]. destruct (N.eqb_spec c 63); [done|].
  destruct name as [|x name].
  - split; [done|]. by intros (? & ? & _).
  - rewrite andb_true_iff, N.eqb_eq. split.
    + intros [-> H]. by exists name.
    + intros (name' & E & H). by simplify_eq.
Qed.

Lemma fnmatch_star (pat name : str) :
  fnmatch (42 :: pat) name = true <->
  exists mid rest, name = mid ++ rest /\ fnmatch pat rest = true.
Proof.
  change (fnmatch (42 :: pat)) with
    (fix star (name : str) : bool :=
       fnmatch pat name ||
       match name with [] => false | _ :: name' => star name' end).
  induction name as [|x name IH].
  - rewrite orb_false_r. split.
    + intros H. by exists [], [].
    + intros (mid & rest & E & H). by destruct mid, rest.
  - rewrite orb_true_iff, IH. split.
    + intros [H|(mid & rest & -> & H)].
      * by exists [], (x :: name).
      * by exists (x :: mid), rest.
    + intros (mid & rest & E & H). destruct mid as [|y mid]; simpl in E.
      * left. by rewrite E.
      * right. simplify_eq. by exists mid, rest.
Qed.

(** The names the script's pattern selects. *)
Lemma fnmatch_section (name : str) :
  fnmatch (lit "sec_*.json") name = true <-> section_name name.
Proof.
  change (lit "sec_*.json") with
    (115 :: 101 :: 99 :: 95 :: 42 :: 46 :: 106 :: 115 :: 111 :: 110 :: []).
  unfold section_name. split.
  - intros H.
    repeat (apply fnmatch_literal in H as (? & -> & H); [|done..]).
    apply fnmatch_star in H as (mid & rest & -> & H).
    repeat (apply fnmatch_literal in H as (? & -> & H); [|done..]).
    apply fnmatch_nil in H as ->. by exists mid.
  - intros (mid & ->).
    change (lit "sec_" ++ mid ++ lit ".json") with
      (115 :: 101 :: 99 :: 95 :: mid ++ 46 :: 106 :: 115 :: 111 :: 110 :: []).
    repeat (apply fnmatch_literal; [done..|]; eexists; split; [done|]).
    apply fnmatch_star. exists mid, (46 :: 106 :: 115 :: 111 :: 110 :: []).
    split; [done|]. reflexivity.
Qed.

Lemma section_not_hidden (name : str) :
  fnmatch (lit "sec_*.json") name = true -> ishidden name = false.
Proof. intros (mid & ->)%fnmatch_section. done. Qed.

Lemma section_join (name : str) :
  fnmatch (lit "sec_*.json") name = true ->
  path_join base name = base ++ lit "/" ++ name.
Proof. intros (mid & ->)%fnmatch_section. done. Qed.

Lemma pattern_split :
  path_split (path_join base (lit "sec_*.json")) = (base, lit "sec_*.json").
Proof. reflexivity. Qed.

(** The pattern takes the branch of [glob.glob] that [glob] models. *)
Lemma pattern_magic :
  has_magic base = false /\ has_magic (lit "sec_*.json") = true.
Proof. split; reflexivity. Qed.

Lemma filter_hidden (ns : list str) :
  filter (fun x => fnmatch (lit "sec_*.json") x = true)
    (filter (fun x => ishidden x = false) ns)
  = filter (fun x => fnmatch (lit "sec_*.json") x = true) ns.
Proof.
  induction ns as [|n ns IH]; [done|].
  rewrite (filter_cons (fun x => ishidden x = false)).
  destruct (decide (ishidden n = false)) as [Hh|Hh].
  - rewrite !filter_cons. by rewrite IH.
  - rewrite filter_cons, IH. destruct (decide _) as [Hm|]; [|done].
    by apply section_not_hidden in Hm.
Qed.

(** What [glob.glob] returns for the script's pattern. *)
Lemma glob_sections (e : env) :
  glob e (path_join base (lit "sec_*.json"))
  = map (fun name => base ++ lit "/" ++ name)
      (filter (fun x => fnmatch (lit "sec_*.json") x = true) (entries e)).
Proof.
  unfold glob. rewrite pattern_split. unfold glob1.
  change (ishidden (lit "sec_*.json")) with false. cbv iota.
  fold (entries e). rewrite filter_hidden.
  apply map_ext_in. intros n Hn%list_elem_of_In.
  apply list_elem_of_filter in Hn as [Hn _]. by apply section_join.
Qed.

(** Sorting the paths is sorting the names. *)
Lemma sorted_prefix (p : str) (ns : list str) :
  sorted (map (fun n => p ++ n) ns) = map (fun n => p ++ n) (sorted ns).
Proof.
  unfold sorted. apply (Sorted_unique str_le).
  - apply Sorted_merge_sort, _.
  - apply (Sorted_fmap _ str_le str_le).
    + intros x y. apply StrOrder.le_app.
    + apply Sorted_merge_sort, _.
  - rewrite merge_sort_Permutation.
    apply Permutation_map. by rewrite merge_sort_Permutation.
Qed.

Lemma files_by_name (e : env) :
  files e = map (fun name => base ++ lit "/" ++ name)
              (sorted (filter (fun x => fnmatch (lit "sec_*.json") x = true)
                         (entries e))).
Proof.
  unfold files. rewrite glob_sections.
  apply (sorted_prefix (base ++ lit "/")).
Qed.

(** The order a directory is listed in does not show in [files]. *)
Lemma files_listing_order (e1 e2 : env) :
  same_entries e1 e2 -> files e1 = files e2.
Proof.
  intros H. rewrite !files_by_name. f_equal.
  unfold sorted. apply (Sorted_unique str_le).
  - apply Sorted_merge_sort, _.
  - apply Sorted_merge_sort, _.
  - rewrite !merge_sort_Permutation. unfold entries.
    specialize (H base).
    destruct (scandir e1 base), (scandir e2 base); try done.
    by rewrite H.
Qed.

End Discovery.

(** ** Dictionaries *)

Module Dict.

Lemma get_set_eq (k : str) (v : value) (d : dict) :
  dict_get k (dict_set k v d) = Some v.
Proof.
  induction d as [|[k' v'] d IH]; simpl.
  - by rewrite decide_True.
  - destruct (decide (k' = k)) as [->|Hne]; simpl.
    + by rewrite decide_True.
    + by rewrite decide_False.
Qed.

Lemma get_set_ne (k k' : str) (v : value) (d : dict) :
  k <> k' -> dict_get k' (dict_set k v d) = dict_get k' d.
Proof.
  intros Hne. induction d as [|[k0 v0] d IH]; simpl.
  - by rewrite decide_False.
  - destruct (decide (k0 = k)) as [->|Hne0]; simpl.
    + by rewrite !decide_False.
    + by rewrite IH.
Qed.

(** A key that is absent goes last. *)
Lemma set_absent (k : str) (v : value) (d : dict) :
  dict_get k d = None -> dict_set k v d = d ++ [(k, v)].
Proof.
  induction d as [|[k' v'] d IH]; simpl; [done|].
  destruct (decide (k' = k)); [done|]. intros H. by rewrite IH.
Qed.

(** A key that is present keeps its place: the keys stay as they are. *)
Lemma set_present (k : str) (v : value) (d : dict) :
  is_Some (dict_get k d) -> map fst (dict_set k v d) = map fst d.
Proof.
  induction d as [|[k' v'] d IH]; simpl.
  - by intros [? ?].
  - destruct (decide (k' = k)); [done|]. intros H. simpl. by rewrite IH.
Qed.

(** Setting [id] leaves the other fields, and their order, alone. *)
Lemma payload_set (v : value) (d : dict) :
  payload (dict_set (lit "id") v d) = payload d.
Proof.
  unfold payload. induction d as [|[k0 v0] d IH]; simpl.
  - rewrite filter_cons. by rewrite decide_False by (by intros []).
  - destruct (decide (k0 = lit "id")) as [->|Hne].
    + rewrite !filter_cons. by rewrite !decide_False by (by intros []).
    + rewrite !filter_cons. simpl. by rewrite IH.
Qed.

End Dict.

(** ** The two loops *)

Module Loops.

(** The cards numbered from [start]. *)
Lemma renumber_dicts (start : Z) (ds : list dict) :
  renumber start (map VDict ds)
  = Ok (imap (fun i d => VDict (dict_set (lit "id") (VInt (start + Z.of_nat i)) d)) ds).
Proof.
  revert start. induction ds as [|d ds IH]; intros start; simpl; [done|].
  rewrite IH. simpl. do 2 f_equal.
  - do 3 f_equal. lia.
  - apply imap_ext. intros i x _. simpl. do 3 f_equal. lia.
Qed.

(** The numbering loop raises nothing but [TypeError]. *)
Lemma renumber_raises (start : Z) (cs : list value) (x : exn) :
  renumber start cs = Raise x -> x = TypeError.
Proof.
  revert start. induction cs as [|c cs IH]; intros start; simpl; [done|].
  destruct c; simpl; try (by intros [= <-]).
  destruct (renumber (start + 1) cs) eqn:E; simpl; [done|].
  intros [= <-]. by eapply IH.
Qed.

(** One card that is not an object stops the numbering loop. *)
Lemma renumber_non_dict (start : Z) (cs : list value) (c : value) :
  c ∈ cs -> is_dict c = false -> renumber start cs = Raise TypeError.
Proof.
  intros Hin Hc. revert start.
  induction Hin as [c cs|c c0 cs Hin IH]; intros start; simpl.
  - by destruct c.
  - destruct c0; simpl; try done. by rewrite IH.
Qed.

(** When the numbering loop ends, every card was an object. *)
Lemma renumber_ok (start : Z) (cs r : list value) :
  renumber start cs = Ok r -> exists ds, cs = map VDict ds.
Proof.
  revert start r. induction cs as [|c cs IH]; intros start r; simpl.
  - intros _. by exists [].
  - destruct c; simpl; try done.
    destruct (renumber (start + 1) cs) eqn:E; simpl; [|done].
    intros _. apply IH in E as [ds ->]. by exists (d :: ds).
Qed.

(** Files that hold arrays of objects are concatenated in order. *)
Lemma load_arrays (e : env) (cards : list value) (fs : list str)
    (ps : list (list dict)) :
  Forall2 (fun f p => load_json e f = Ok (records p)) fs ps ->
  load_sections e cards fs = Ok (cards ++ map VDict (concat ps)).
Proof.
  intros H. revert cards.
  induction H as [|f p fs ps Hf _ IH]; intros cards; simpl.
  - by rewrite app_nil_r.
  - rewrite Hf. simpl. unfold extend. simpl. rewrite IH.
    by rewrite map_app, app_assoc.
Qed.

(** What the loading loop has put in [cards] stays there. *)
Lemma load_keeps (e : env) (cards r : list value) (fs : list str) :
  load_sections e cards fs = Ok r -> forall c, c ∈ cards -> c ∈ r.
Proof.
  revert cards. induction fs as [|f fs IH]; intros cards; simpl.
  - by intros [= <-].
  - destruct (load_json e f) as [v|]; simpl; [|done]. unfold extend.
    destruct (iter v) as [xs|]; simpl; [|done].
    intros H c Hc. apply (IH _ H). apply elem_of_app. by left.
Qed.

(** Every element drawn from a file that was loaded is among the cards. *)
Lemma load_elements (e : env) (cards r : list value) (fs : list str)
    (f : str) (v : value) (xs : list value) :
  load_sections e cards fs = Ok r ->
  f ∈ fs -> load_json e f = Ok v -> iter v = Ok xs ->
  forall c, c ∈ xs -> c ∈ r.
Proof.
  intros H Hin Hv Hxs c Hc. revert cards H.
  induction Hin as [f fs|f g fs Hin IH]; intros cards; simpl.
  - rewrite Hv. simpl. unfold extend. rewrite Hxs. simpl. intros H.
    apply (load_keeps _ _ _ _ H). apply elem_of_app. by right.
  - destruct (load_json e g) as [v'|]; simpl; [|done]. unfold extend.
    destruct (iter v') as [xs'|]; simpl; [|done]. by apply IH.
Qed.

(** When every file opens and parses, the loading loop can only fail on
    a document that cannot be iterated. *)
Lemma load_raises (e : env) (cards : list value) (fs : list str) (x : exn) :
  (forall g, g ∈ fs -> exists v, load_json e g = Ok v) ->
  load_sections e cards fs = Raise x -> x = TypeError.
Proof.
  revert cards. induction fs as [|f fs IH]; intros cards Hall; simpl; [done|].
  destruct (Hall f) as [v ->]; [by left|]. simpl. unfold extend.
  destruct v; simpl; try (by intros [= <-]);
    apply IH; intros g Hg; apply Hall; by right.
Qed.

(** When every file loads to something iterable, the loading loop ends. *)
Lemma load_total (e : env) (cards : list value) (fs : list str) :
  (forall g, g ∈ fs -> exists v xs, load_json e g = Ok v /\ iter v = Ok xs) ->
  exists r, load_sections e cards fs = Ok r.
Proof.
  revert cards. induction fs as [|f fs IH]; intros cards Hall; simpl.
  - by exists cards.
  - destruct (Hall f) as (v & xs & -> & Hxs); [by left|]. simpl.
    unfold extend. rewrite Hxs. simpl. apply IH. intros g Hg. apply Hall. by right.
Qed.

End Loops.

(** ** The dataset *)

Module Dataset.

(** Partitions that are arrays of objects give the numbered concatenation. *)
Lemma build_arrays (e : env) (ps : list (list dict)) :
  partitions e ps -> build_cards e = Ok (numbered ps).
Proof.
  intros H. unfold build_cards.
  rewrite (Loops.load_arrays e [] (files e) ps H). simpl.
  rewrite Loops.renumber_dicts. unfold numbered. f_equal.
  apply imap_ext. intros i d _. simpl. do 3 f_equal. lia.
Qed.

Lemma length_numbered (ps : list (list dict)) :
  length (numbered ps) = length (concat ps).
Proof. unfold numbered. apply length_imap. Qed.

Lemma lookup_numbered (ps : list (list dict)) (i : nat) (d : dict) :
  concat ps !! i = Some d ->
  numbered ps !! i
  = Some (VDict (dict_set (lit "id") (VInt (Z.of_nat i + 1)) d)).
Proof. intros H. unfold numbered. rewrite list_lookup_imap, H. done. Qed.

Lemma ids_from (start : Z) (ds : list dict) :
  map card_id
    (imap (fun i d => VDict (dict_set (lit "id") (VInt (start + Z.of_nat i)) d)) ds)
  = map (fun i => Some (VInt (start + Z.of_nat i))) (seq 0 (length ds)).
Proof.
  revert start. induction ds as [|d ds IH]; intros start; simpl; [done|].
  f_equal.
  - apply Dict.get_set_eq.
  - rewrite <- seq_shift, map_map.
    etrans; [|etrans; [apply (IH (start + 1)%Z)|]].
    + f_equal. apply imap_ext. intros i x _. simpl. do 3 f_equal. lia.
    + apply map_ext. intros i. do 2 f_equal. lia.
Qed.

Lemma ids_numbered (ps : list (list dict)) :
  map card_id (numbered ps)
  = map (fun i => Some (VInt (Z.of_nat i))) (seq 1 (length (concat ps))).
Proof.
  unfold numbered.
  rewrite (imap_ext _ (fun i d => VDict (dict_set (lit "id") (VInt (1 + Z.of_nat i)) d)))
    by (intros i d _; simpl; do 3 f_equal; lia).
  rewrite ids_from, <- seq_shift, map_map.
  apply map_ext. intros i. do 2 f_equal. lia.
Qed.

Lemma concat_empty {A} (fs : list A) :
  concat (map (fun _ => []) fs) = ([] : list dict).
Proof. induction fs; done. Qed.

(** Files that all hold the empty array are partitions without records. *)
Lemma empty_partitions (e : env) :
  (forall f, f ∈ files e -> load_json e f = Ok (VList [])) ->
  partitions e (map (fun _ => []) (files e)).
Proof.
  unfold partitions. generalize (files e). intros fs H.
  induction fs as [|f fs IH]; simpl; constructor.
  - apply H. by left.
  - apply IH. intros g Hg. apply H. by right.
Qed.

End Dataset.

(** ** A run of the script *)

Module Run.

Lemma main_eq (e : env) (w : world) :
  main e w =
  match build_cards e with
  | Ok cards =>
      if out_openable e then
        match utf8 (dumps cards) with
        | Some bytes =>
            (Ok tt, World (Holds bytes) (stdout w ++ [summary cards]))
        | None => (Raise UnicodeEncodeError, World Torn (stdout w))
        end
      else (Raise OSError, w)
  | Raise x => (Raise x, w)
  end.
Proof.
  unfold main, lift, write_out, print, mbind, prog_bind.
  destruct (build_cards e); [|done].
  destruct (out_openable e); [|done].
  by destruct (utf8 _).
Qed.

Lemma run_eq (e : env) (w : world) :
  run e w =
  match build_cards e with
  | Ok cards =>
      if out_openable e then
        match utf8 (dumps cards) with
        | Some bytes =>
            Outcome 0 None (World (Holds bytes) (stdout w ++ [summary cards]))
        | None => Outcome 1 (Some UnicodeEncodeError) (World Torn (stdout w))
        end
      else Outcome 1 (Some OSError) w
  | Raise x => Outcome 1 (Some x) w
  end.
Proof.
  unfold run. rewrite main_eq.
  destruct (build_cards e); [|done].
  destruct (out_openable e); [|done].
  by destruct (utf8 _).
Qed.

(** The loading loop sees the files only through [load_json]. *)
Lemma load_ext (e1 e2 : env) (cards : list value) (fs : list str) :
  (forall f, load_json e1 f = load_json e2 f) ->
  load_sections e1 cards fs = load_sections e2 cards fs.
Proof.
  intros H. revert cards. induction fs as [|f fs IH]; intros cards; simpl.
  - done.
  - rewrite H. destruct (load_json e2 f) as [v|]; simpl; [|done].
    destruct (extend cards v); simpl; [|done]. apply IH.
Qed.

(** The dataset depends on the files' names and contents only. *)
Lemma build_ext (e1 e2 : env) :
  same_entries e1 e2 -> (forall f, load_json e1 f = load_json e2 f) ->
  build_cards e1 = build_cards e2.
Proof.
  intros Hdir Hload. unfold build_cards.
  rewrite (Discovery.files_listing_order e1 e2 Hdir).
  by rewrite (load_ext e1 e2 [] (files e2) Hload).
Qed.

(** A card that is not an object, drawn from a file that loads, fails the
    build; when every file opens and parses the failure is a [TypeError]. *)
Lemma non_dict_fails (e : env) (f : str) (v c : value) (xs : list value) :
  f ∈ files e -> load_json e f = Ok v -> iter v = Ok xs ->
  c ∈ xs -> is_dict c = false ->
  exists x, build_cards e = Raise x /\
    ((forall g, g ∈ files e -> exists v', load_json e g = Ok v') ->
     x = TypeError).
Proof.
  intros Hf Hv Hxs Hc Hnd. unfold build_cards.
  destruct (load_sections e [] (files e)) as [cs|x] eqn:E; simpl.
  - exists TypeError. split; [|done].
    apply (Loops.renumber_non_dict 1 cs c); [|done].
    by apply (Loops.load_elements e [] cs (files e) f v xs).
  - exists x. split; [done|]. intros Hall.
    by apply (Loops.load_raises e [] (files e) x).
Qed.

Lemma files_empty_array_env :
  files empty_array_env = [section_path (lit "sec_01.json")].
Proof. vm_compute. reflexivity. Qed.

Lemma files_string_card_env :
  files string_card_env = [section_path (lit "sec_01.json")].
Proof. vm_compute. reflexivity. Qed.


Lemma files_scenario_env :
  files scenario_env
  = [section_path (lit "sec_01.json"); section_path (lit "sec_02.json")].
Proof. vm_compute. reflexivity. Qed.

Lemma scenario_partitions :
  partitions scenario_env [partition_A; partition_B].
Proof.
  unfold partitions. rewrite files_scenario_env.
  repeat constructor.
Qed.

End Run.

Module More.

Lemma set_set (k : str) (v : value) (d : dict) :
  dict_set k v (dict_set k v d) = dict_set k v d.
Proof.
  induction d as [|[k' v'] d IH]; simpl.
  - by rewrite decide_True.
  - destruct (decide (k' = k)) as [->|Hne]; simpl.
    + by rewrite decide_True.
    + rewrite decide_False by done. by rewrite IH.
Qed.

(** Numbering cards that are already numbered changes nothing. *)
Lemma renumber_again (start : Z) (cs r : list value) :
  renumber start cs = Ok r -> renumber start r = Ok r.
Proof.
  revert start r. induction cs as [|c cs IH]; intros start r; simpl.
  - by intros [= <-].
  - destruct c; simpl; try done.
    destruct (renumber (start + 1) cs) as [r'|] eqn:E; simpl; [|done].
    intros [= <-]. simpl. rewrite (IH _ _ E). simpl. by rewrite set_set.
Qed.

(** The loading loop stops at the first file that does not load. *)
Lemma load_first_failure (e : env) (cards : list value)
    (pre post : list str) (f : str) (x : exn) :
  (forall g, g ∈ pre -> exists v xs, load_json e g = Ok v /\ iter v = Ok xs) ->
  load_json e f = Raise x ->
  load_sections e cards (pre ++ f :: post) = Raise x.
Proof.
  intros Hpre Hf. revert cards.
  induction pre as [|g pre IH]; intros cards; simpl.
  - by rewrite Hf.
  - destruct (Hpre g) as (v & xs & -> & Hxs); [by left|]. simpl.
    unfold extend. rewrite Hxs. simpl.
    apply IH. intros h Hh. apply Hpre. by right.
Qed.

(** When the loading loop ends, every file loaded to something iterable. *)
Lemma load_ok_inv (e : env) (cards r : list value) (fs : list str) :
  load_sections e cards fs = Ok r ->
  forall f, f ∈ fs -> exists v xs, load_json e f = Ok v /\ iter v = Ok xs.
Proof.
  revert cards. induction fs as [|g fs IH]; intros cards; simpl.
  - intros _ f Hf. by apply not_elem_of_nil in Hf.
  - destruct (load_json e g) as [v|] eqn:Ev; simpl; [|done]. unfold extend.
    destruct (iter v) as [xs|] eqn:Exs; simpl; [|done].
    intros H f Hf. apply elem_of_cons in Hf as [->|Hf].
    + by exists v, xs.
    + by apply (IH _ H).
Qed.

(** Every card the loading loop ends with was there at the start or was
    drawn from one of the files. *)
Lemma load_origin (e : env) (cards r : list value) (fs : list str) :
  load_sections e cards fs = Ok r ->
  forall c, c ∈ r ->
    c ∈ cards \/
    exists f v xs, f ∈ fs /\ load_json e f = Ok v /\ iter v = Ok xs /\ c ∈ xs.
Proof.
  revert cards. induction fs as [|g fs IH]; intros cards; simpl.
  - intros [= <-] c Hc. by left.
  - destruct (load_json e g) as [v|] eqn:Ev; simpl; [|done]. unfold extend.
    destruct (iter v) as [xs|] eqn:Exs; simpl; [|done].
    intros H c Hc.
    destruct (IH _ H c Hc) as [Hin|(f & v' & xs' & Hf & Hv' & Hxs' & Hin)].
    + apply elem_of_app in Hin as [Hin|Hin]; [by left|].
      right. exists g, v, xs. repeat split; try done. by left.
    + right. exists f, v', xs'. repeat split; try done. by right.
Qed.

Lemma all_dicts (l : list value) :
  (forall c, c ∈ l -> is_dict c = true) -> exists p, l = map VDict p.
Proof.
  induction l as [|c l IH]; intros H.
  - by exists [].
  - destruct IH as [p ->]; [intros c' Hc'; apply H; by right|].
    specialize (H c (list_elem_of_here _ _)).
    destruct c; try done. by exists (d :: p).
Qed.

Lemma dicts_are_dicts (p : list dict) (c : value) :
  c ∈ map VDict p -> is_dict c = true.
Proof. intros Hc%list_elem_of_In%in_map_iff. by destruct Hc as (d & <- & _). Qed.

(** The loading loop sees only the files it is given. *)
Lemma load_ext_on (e1 e2 : env) (cards : list value) (fs : list str) :
  (forall f, f ∈ fs -> load_json e1 f = load_json e2 f) ->
  load_sections e1 cards fs = load_sections e2 cards fs.
Proof.
  revert cards. induction fs as [|f fs IH]; intros cards H; simpl; [done|].
  rewrite (H f) by (by left).
  destruct (load_json e2 f) as [v|]; simpl; [|done].
  destruct (extend cards v); simpl; [|done].
  apply IH. intros g Hg. apply H. by right.
Qed.

(** The shapes of a document whose elements are all objects. *)
Lemma iterable_dicts (v : value) (xs : list value) :
  iter v = Ok xs -> (forall c, c ∈ xs -> is_dict c = true) ->
  (exists p, v = records p) \/ v = VDict [] \/ v = VStr [].
Proof.
  destruct v; simpl; try done; intros [= <-] H.
  - right. right. destruct s as [|c s]; [done|].
    by specialize (H (VStr [c]) (list_elem_of_here _ _)).
  - left. destruct (all_dicts l H) as [p ->]. by exists p.
  - right. left. destruct d as [|[k v] d]; [done|].
    by specialize (H (VStr k) (list_elem_of_here _ _)).
Qed.

(** What the files of a build that succeeds hold. *)
Lemma shapes_of_build (e : env) (cards : list value) :
  build_cards e = Ok cards ->
  forall f, f ∈ files e ->
    (exists p, load_json e f = Ok (records p)) \/
    load_json e f = Ok (VDict []) \/
    load_json e f = Ok (VStr []).
Proof.
  unfold build_cards. intros H f Hf.
  destruct (load_sections e [] (files e)) as [cs|] eqn:E; simpl in H; [|done].
  destruct (load_ok_inv e [] cs (files e) E f Hf) as (v & xs & Hv & Hxs).
  destruct (Loops.renumber_ok 1 cs cards H) as [ds ->].
  destruct (iterable_dicts v xs Hxs) as [[p ->]| [-> | ->]]; eauto.
  intros c Hc. apply (dicts_are_dicts ds).
  by apply (Loops.load_elements e [] _ (files e) f v xs).
Qed.

(** Files of these shapes contribute some records each. *)
Lemma shapes_contribute (e : env) (fs : list str) :
  (forall f, f ∈ fs ->
     (exists p, load_json e f = Ok (records p)) \/
     load_json e f = Ok (VDict []) \/
     load_json e f = Ok (VStr [])) ->
  exists ps, Forall2 (contributes e) fs ps.
Proof.
  induction fs as [|f fs IH]; intros H.
  - by exists [].
  - destruct IH as [ps Hps]; [intros g Hg; apply H; by right|].
    destruct (H f) as [[p Hp]| [Hp | Hp]]; [by left|..].
    + exists (p :: ps). constructor; [by left|done].
    + exists ([] :: ps). constructor; [right; auto|done].
    + exists ([] :: ps). constructor; [right; auto|done].
Qed.

(** The loading loop appends what each file contributes. *)
Lemma load_contributions (e : env) (cards : list value) (fs : list str)
    (ps : list (list dict)) :
  Forall2 (contributes e) fs ps ->
  load_sections e cards fs = Ok (cards ++ map VDict (concat ps)).
Proof.
  intros H. revert cards.
  induction H as [|f p fs ps Hf _ IH]; intros cards; simpl.
  - by rewrite app_nil_r.
  - destruct Hf as [Hf|[-> [Hf|Hf]]]; rewrite Hf; simpl; unfold extend; simpl;
      rewrite IH; by rewrite ?map_app, ?app_assoc, ?app_nil_r.
Qed.

Lemma files_unreadable_env :
  files unreadable_env
  = [] ++ section_path (lit "sec_01.json") :: [section_path (lit "sec_02.json")].
Proof. vm_compute. reflexivity. Qed.

Lemma files_rebuilt_env : files rebuilt_env = [section_path (lit "sec_01.json")].
Proof. vm_compute. reflexivity. Qed.

End More.

Module Frame.

(** The files discovered depend on the section entries only. *)
Lemma files_sections (e1 e2 : env) :
  filter (fun n => fnmatch (lit "sec_*.json") n = true) (entries e1)
  ≡ₚ filter (fun n => fnmatch (lit "sec_*.json") n = true) (entries e2) ->
  files e1 = files e2.
Proof.
  intros H. rewrite !Discovery.files_by_name. f_equal.
  unfold sorted. apply (Sorted_unique str_le).
  - apply Sorted_merge_sort, _.
  - apply Sorted_merge_sort, _.
  - by rewrite !merge_sort_Permutation.
Qed.

(** Every file discovered is a section entry of the directory. *)
Lemma files_elem (e : env) (f : str) :
  f ∈ files e <->
  exists n, n ∈ entries e /\ section_name n /\ f = section_path n.
Proof.
  rewrite Discovery.files_by_name. unfold sorted.
  rewrite list_elem_of_In, in_map_iff. split.
  - intros (n & <- & Hn). exists n.
    apply list_elem_of_In in Hn. rewrite merge_sort_Permutation in Hn.
    apply list_elem_of_filter in Hn as [Hm Hn].
    by apply Discovery.fnmatch_section in Hm.
  - intros (n & Hn & Hs & ->). exists n. split; [done|].
    apply list_elem_of_In. rewrite merge_sort_Permutation.
    apply list_elem_of_filter. split; [|done].
    by apply Discovery.fnmatch_section.
Qed.

Lemma sections_cluttered_env :
  filter (fun n => fnmatch (lit "sec_*.json") n = true) (entries scenario_env)
  = filter (fun n => fnmatch (lit "sec_*.json") n = true) (entries cluttered_env).
Proof. vm_compute. reflexivity. Qed.

Lemma entries_scenario_env :
  entries scenario_env = [lit "sec_02.json"; lit "sec_01.json"].
Proof. vm_compute. reflexivity. Qed.

End Frame.

(** ** Decimal numerals *)

Module Numeral.

Lemma lit_String (c : ascii) (t : string) :
  lit (String c t) = N_of_ascii c :: lit t.
Proof. reflexivity. Qed.

(** The numeral of a [uint] is made of digits. *)
Lemma uint_digits (d : Decimal.uint) :
  forallb is_digit (lit (NilEmpty.string_of_uint d)) = true.
Proof. induction d; [done|exact IHd..]. Qed.

(** Reading the numeral of a [uint] after a number that is not zero. *)
Lemma uint_value_pos (d : Decimal.uint) (acc : positive) :
  fold_left (fun acc c => 10 * acc + (c - 48))
    (lit (NilEmpty.string_of_uint d)) (Npos acc)
  = Npos (Pos.of_uint_acc d acc).
Proof.
  revert acc. induction d; intros acc; [done|..];
    cbn [NilEmpty.string_of_uint Pos.of_uint_acc];
    rewrite lit_String; cbn [fold_left];
    (etrans; [|apply IHd]); f_equal; vm_compute N_of_ascii; lia.
Qed.

(** Reading the numeral of a [uint]. *)
Lemma uint_value (d : Decimal.uint) :
  digits_value (lit (NilEmpty.string_of_uint d)) = Pos.of_uint d.
Proof.
  unfold digits_value. induction d; [done|..];
    cbn [NilEmpty.string_of_uint Pos.of_uint];
    rewrite lit_String; cbn [fold_left];
    first [ exact IHd | (etrans; [|apply uint_value_pos]); f_equal ].
Qed.

Lemma nzhead_head (d l : Decimal.uint) : Decimal.nzhead d <> Decimal.D0 l.
Proof. induction d; simpl; done. Qed.

(** The numeral of a positive number does not start with a zero. *)
Lemma to_uint_head (p : positive) (l : Decimal.uint) :
  Pos.to_uint p <> Decimal.D0 l.
Proof.
  intros H. pose proof (DecimalPos.Unsigned.to_of (Pos.to_uint p)) as E.
  rewrite DecimalPos.Unsigned.of_to in E. simpl in E.
  rewrite H in E. unfold Decimal.unorm in E.
  destruct (Decimal.nzhead (Decimal.D0 l)) eqn:Hn;
    try (by apply nzhead_head in Hn); try discriminate E.
  apply (DecimalPos.Unsigned.to_uint_nonzero p). by rewrite H, E.
Qed.

(** [repr_int] of a number that is not negative is its decimal numeral:
    digits only, worth the number, and without a leading zero unless it
    is the single digit of zero. *)
Lemma repr_int_decimal (z : Z) :
  (0 <= z)%Z ->
  forallb is_digit (repr_int z) = true /\
  digits_value (repr_int z) = Z.to_N z /\
  (repr_int z = [48] \/ exists c rest, repr_int z = c :: rest /\ c <> 48).
Proof.
  intros Hz. destruct z as [|p|p]; [by repeat split; auto| |lia].
  unfold repr_int. simpl.
  pose proof (DecimalPos.Unsigned.to_uint_nonnil p) as Hnil.
  pose proof (to_uint_head p) as Hhead.
  pose proof (DecimalPos.Unsigned.of_to p) as Hval.
  pose proof (uint_digits (Pos.to_uint p)) as Hdig.
  pose proof (uint_value (Pos.to_uint p)) as Hfold.
  rewrite Hval in Hfold.
  destruct (Pos.to_uint p) as [|l|l|l|l|l|l|l|l|l|l] eqn:E;
    [done|by destruct (Hhead l)|..];
    (split; [exact Hdig|]; split; [exact Hfold|]; right;
     simpl; rewrite lit_String; eexists _, _; split; [reflexivity|done]).
Qed.

End Numeral.

(** ** A file that holds the empty object *)

Module Object.




End Object.

(** * The claims *)

(** C1 (renumbering). When the files discovered hold arrays of records, the
    build produces a dataset with one card per source record, [N] in all;
    the card at position [i] (counted from 1) is an object whose [id] is
    [i], so the ids read [1, 2, ..., N]. A source record without [id] gets
    the field, placed last; one with an [id], whatever its value, keeps its
    keys as they are and has the value replaced. *)
Theorem renumbering (e : env) (ps : list (list dict)) :
  partitions e ps ->
  exists cards,
    build_cards e = Ok cards /\
    length cards = length (concat ps) /\
    map card_id cards
    = map (fun i => Some (VInt (Z.of_nat i))) (seq 1 (length (concat ps))) /\
    forall i d, concat ps !! i = Some d ->
      exists d', cards !! i = Some (VDict d') /\
                 dict_get (lit "id") d' = Some (VInt (Z.of_nat i + 1)) /\
                 (dict_get (lit "id") d = None ->
                  d' = d ++ [(lit "id", VInt (Z.of_nat i + 1))]) /\
                 (is_Some (dict_get (lit "id") d) -> map fst d' = map fst d).
Proof.
  intros H. exists (numbered ps).
  split; [by apply Dataset.build_arrays|].
  split; [apply Dataset.length_numbered|].
  split; [apply Dataset.ids_numbered|].
  intros i d Hd.
  eexists. split; [by apply Dataset.lookup_numbered|].
  split; [apply Dict.get_set_eq|].
  split; [apply Dict.set_absent|apply Dict.set_present].
Qed.

Lemma renumbering_scenario :
  partitions scenario_env [partition_A; partition_B] /\
  exists cards,
    build_cards scenario_env = Ok cards /\
    map card_id cards = [Some (VInt 1); Some (VInt 2); Some (VInt 3)].
Proof.
  split; [apply Run.scenario_partitions|].
  destruct (renumbering scenario_env [partition_A; partition_B]
              Run.scenario_partitions) as (cards & Hb & _ & Hids & _).
  exists cards. split; [exact Hb|exact Hids].
Defined.

(** C2 (ordering). When the files discovered, taken in discovery order,
    hold the record arrays [ps], the dataset is exactly the concatenation
    of [ps], record by record in that order, each record carrying its
    position as [id]: nothing is reordered, dropped or repeated. *)
Theorem ordering (e : env) (ps : list (list dict)) :
  partitions e ps ->
  build_cards e
  = Ok (imap (fun i d => VDict (dict_set (lit "id") (VInt (Z.of_nat i + 1)) d))
          (concat ps)).
Proof. apply Dataset.build_arrays. Qed.

Lemma ordering_scenario :
  partitions scenario_env [partition_A; partition_B] /\
  build_cards scenario_env
  = Ok [VDict [(lit "term", VStr (lit "hablar")); (lit "id", VInt 1)];
        VDict [(lit "term", VStr (lit "comer")); (lit "id", VInt 2)];
        VDict [(lit "term", VStr (lit "vivir")); (lit "id", VInt 3)]].
Proof.
  split; [apply Run.scenario_partitions|].
  rewrite (ordering scenario_env [partition_A; partition_B]
             Run.scenario_partitions).
  reflexivity.
Defined.

(** C5 (partition order). The files discovered are exactly the entries of
    the sections directory named [sec_*.json], each as often as it is
    listed, none lost and none added; [sorted] rearranges a list without
    losing or adding an element and leaves it in order, so the files come
    sorted by name, which is also sorted by path, in the lexical order of
    code points, a total order; and the records are assembled in that
    order. *)
Theorem partition_order (e : env) :
  files e
  = map section_path
      (sorted (filter (fun n => fnmatch (lit "sec_*.json") n = true) (entries e))) /\
  files e
  ≡ₚ map section_path
       (filter (fun n => fnmatch (lit "sec_*.json") n = true) (entries e)) /\
  (forall f, f ∈ files e <->
     exists n, n ∈ entries e /\ section_name n /\ f = section_path n) /\
  (forall l, sorted l ≡ₚ l /\ StronglySorted str_le (sorted l)) /\
  (forall n, fnmatch (lit "sec_*.json") n = true <-> section_name n) /\
  StronglySorted str_le (files e) /\
  StronglySorted str_le
    (sorted (filter (fun n => fnmatch (lit "sec_*.json") n = true) (entries e))) /\
  (forall a b, str_le a b \/ str_le b a) /\
  (forall a b, str_le a b -> str_le b a -> a = b) /\
  (forall a b c, str_le a b -> str_le b c -> str_le a c) /\
  (forall a b, str_le a b <->
     a = b \/
     (exists c cs, b = a ++ c :: cs) \/
     (exists p x y a' b', a = p ++ x :: a' /\ b = p ++ y :: b' /\ x < y)) /\
  (forall ps, partitions e ps -> build_cards e = Ok (numbered ps)).
Proof.
  split; [apply Discovery.files_by_name|].
  split.
  { rewrite Discovery.files_by_name. apply Permutation_map.
    apply merge_sort_Permutation. }
  split; [apply Frame.files_elem|].
  split.
  { intros l. split; [apply merge_sort_Permutation|].
    apply StronglySorted_merge_sort; apply _. }
  split; [apply Discovery.fnmatch_section|].
  split; [apply StronglySorted_merge_sort; apply _|].
  split; [apply StronglySorted_merge_sort; apply _|].
  split; [apply StrOrder.le_total|].
  split; [apply StrOrder.le_antisym|].
  split; [apply StrOrder.le_trans|].
  split; [|apply Dataset.build_arrays].
  intros a b. rewrite <- StrOrder.lt_lexical. split.
  - intros Hab. destruct (str_lt a b) eqn:E; [by right|].
    left. by apply StrOrder.le_antisym.
  - intros [->|Hlt]; [apply StrOrder.le_refl|by apply StrOrder.lt_asym].
Qed.

Lemma partition_order_cluttered :
  entries cluttered_env
  = [lit ".sec_00.json"; lit "sec_02.json"; lit "english.json";
     lit "sec_01.json"; lit "sec_03.txt"] /\
  files cluttered_env
  = [section_path (lit "sec_01.json"); section_path (lit "sec_02.json")] /\
  files cluttered_env
  ≡ₚ [section_path (lit "sec_02.json"); section_path (lit "sec_01.json")].
Proof.
  split; [reflexivity|].
  destruct (partition_order cluttered_env) as (Hfiles & Hperm & _).
  split.
  - rewrite Hfiles. vm_compute. reflexivity.
  - exact Hperm.
Defined.

(** C6 (payload preservation). When the files discovered hold the record
    arrays [ps], the card at each position is the source record at that
    position with nothing but [id] touched: its other fields are the
    source's, with the same values and in the same order, and looking up
    any key but [id] gives what the source record gives. *)
Theorem payload_preserved (e : env) (ps : list (list dict)) :
  partitions e ps ->
  exists cards,
    build_cards e = Ok cards /\
    length cards = length (concat ps) /\
    forall i d, concat ps !! i = Some d ->
      exists d', cards !! i = Some (VDict d') /\
                 payload d' = payload d /\
                 forall k, k <> lit "id" -> dict_get k d' = dict_get k d.
Proof.
  intros H. exists (numbered ps).
  split; [by apply Dataset.build_arrays|].
  split; [apply Dataset.length_numbered|].
  intros i d Hd. eexists. split; [by apply Dataset.lookup_numbered|].
  split; [apply Dict.payload_set|].
  intros k Hk. by apply Dict.get_set_ne.
Qed.

Lemma payload_preserved_scenario :
  partitions scenario_env [partition_A; partition_B] /\
  exists cards,
    build_cards scenario_env = Ok cards /\
    exists d', cards !! 2%nat = Some (VDict d') /\
               payload d' = [(lit "term", VStr (lit "vivir"))].
Proof.
  split; [apply Run.scenario_partitions|].
  destruct (payload_preserved scenario_env [partition_A; partition_B]
              Run.scenario_partitions) as (cards & Hb & _ & Hp).
  exists cards. split; [exact Hb|].
  destruct (Hp 2%nat [(lit "term", VStr (lit "vivir")); (lit "id", VInt 5)]
              eq_refl) as (d' & Hd' & Hpay & _).
  exists d'. split; [exact Hd'|]. rewrite Hpay. reflexivity.
Defined.




(** C4 (a sections directory that is missing), as the code has it: nothing
    is raised, no file is discovered, and the run ends with status 0 after
    writing an empty array. *)
Lemma missing_directory_builds :
  scandir missing_env base = None /\
  files missing_env = [] /\
  run missing_env (World Absent [])
  = Outcome 0 None (World (Holds [x5b; x5d]) [summary []]).
Proof. repeat split; vm_compute; reflexivity. Qed.

(** C4, amended. When the sections directory does not exist or cannot be
    listed, discovery gives the empty list of files and raises nothing, and
    the dataset is empty. *)
Theorem missing_directory (e : env) :
  scandir e base = None -> files e = [] /\ build_cards e = Ok [].
Proof.
  intros H.
  assert (files e = []) as Hfiles.
  { rewrite Discovery.files_by_name. unfold entries. by rewrite H. }
  split; [done|]. unfold build_cards. by rewrite Hfiles.
Qed.

Lemma missing_directory_witness :
  scandir missing_env base = None /\ files missing_env = [].
Proof.
  split; [reflexivity|].
  apply (missing_directory missing_env). reflexivity.
Defined.

(** C7 (empty input). When no file is discovered, or every discovered file
    holds an empty array, and the destination can be opened for writing,
    the run ends with status 0, the dataset is empty and the destination
    holds the two bytes of an empty array. *)
Theorem empty_input (e : env) (w : world) :
  out_openable e = true ->
  files e = [] \/ (forall f, f ∈ files e -> load_json e f = Ok (VList [])) ->
  build_cards e = Ok [] /\
  exit_code (run e w) = 0%Z /\
  raised (run e w) = None /\
  out_file (final (run e w)) = Holds [x5b; x5d] /\
  utf8 (lit "[]") = Some [x5b; x5d].
Proof.
  intros Hopen Hempty.
  assert (build_cards e = Ok []) as Hb.
  { assert (forall f, f ∈ files e -> load_json e f = Ok (VList [])) as Hall.
    { destruct Hempty as [Hnil|Hall]; [|done].
      rewrite Hnil. intros f Hf. by apply not_elem_of_nil in Hf. }
    rewrite (Dataset.build_arrays e (map (fun _ => []) (files e))).
    - unfold numbered. by rewrite Dataset.concat_empty.
    - by apply Dataset.empty_partitions. }
  split; [done|]. rewrite Run.run_eq, Hb, Hopen. done.
Qed.

Lemma empty_input_witness :
  out_openable empty_array_env = true /\
  files empty_array_env <> [] /\
  out_file (final (run empty_array_env old_world)) = Holds [x5b; x5d].
Proof.
  split; [reflexivity|]. split; [by rewrite Run.files_empty_array_env|].
  apply (empty_input empty_array_env old_world); [reflexivity|].
  right. rewrite Run.files_empty_array_env. intros f Hf.
  apply list_elem_of_singleton in Hf as ->. vm_compute. reflexivity.
Defined.

(** C8 (idempotence). Two sets of surroundings with the same directory
    entries, in whatever order each lists them, the same file contents and
    the same access to the destination give the same result: a run that
    succeeds leaves the same bytes in the destination whatever it held
    before, with the same status, exception and summary; and a second run
    started where a first one ended leaves the destination as the first
    left it. *)
Theorem rebuild_identical (e1 e2 : env) (w1 w2 : world) :
  same_entries e1 e2 ->
  (forall f, load_json e1 f = load_json e2 f) ->
  out_openable e1 = out_openable e2 ->
  build_cards e1 = build_cards e2 /\
  exit_code (run e2 w2) = exit_code (run e1 w1) /\
  raised (run e2 w2) = raised (run e1 w1) /\
  (exit_code (run e1 w1) = 0%Z ->
   out_file (final (run e2 w2)) = out_file (final (run e1 w1))) /\
  out_file (final (run e2 (final (run e1 w1)))) = out_file (final (run e1 w1)).
Proof.
  intros Hdir Hload Hopen.
  pose proof (Run.build_ext e1 e2 Hdir Hload) as Hb.
  split; [done|]. rewrite !Run.run_eq, <- Hb, <- Hopen.
  destruct (build_cards e1) as [cards|x]; [|done].
  destruct (out_openable e1); [|done].
  by destruct (utf8 (dumps cards)).
Qed.

Lemma rebuild_identical_scenario :
  same_entries scenario_env (relisted scenario_env) /\
  scandir (relisted scenario_env) base
  = Some [lit "sec_01.json"; lit "sec_02.json"] /\
  out_file (final (run (relisted scenario_env)
                     (final (run scenario_env old_world))))
  = out_file (final (run scenario_env old_world)).
Proof.
  assert (same_entries scenario_env (relisted scenario_env)) as Hdir.
  { intros d. simpl. destruct (decide (d = base)); [|done].
    simpl. apply perm_swap. }
  split; [exact Hdir|]. split; [reflexivity|].
  apply (rebuild_identical scenario_env (relisted scenario_env)
           old_world old_world Hdir); reflexivity.
Defined.

(** C9 (success report). Every run ends in one of two ways. Either the
    dataset was built and written (the destination holds exactly the UTF-8
    bytes of its dump) and then one line was printed, which reads
    [Assembled N cards into PATH] with [PATH] the destination and [N] the
    decimal numeral of the number of cards: digits only, worth that
    number, and without a leading zero unless it is the digit of zero; or
    the run ends with status 1, nothing was printed, and the destination
    holds no complete dump that was not there before. *)
Theorem success_report (e : env) (w : world) :
  (exists cards bytes count,
     build_cards e = Ok cards /\
     utf8 (dumps cards) = Some bytes /\
     run e w
     = Outcome 0 None
         (World (Holds bytes)
            (stdout w ++ [lit "Assembled " ++ count
                          ++ lit " cards into " ++ out])) /\
     count = repr_int (Z.of_nat (length cards)) /\
     forallb is_digit count = true /\
     digits_value count = N.of_nat (length cards) /\
     (count = [48] \/ exists c rest, count = c :: rest /\ c <> 48)) \/
  (exit_code (run e w) = 1%Z /\
   stdout (final (run e w)) = stdout w /\
   forall bytes, out_file (final (run e w)) = Holds bytes ->
                 out_file w = Holds bytes).
Proof.
  rewrite Run.run_eq.
  destruct (build_cards e) as [cards|x]; [|by right].
  destruct (out_openable e); [|by right].
  destruct (utf8 (dumps cards)) as [bytes|] eqn:E; [|by right].
  left. exists cards, bytes, (repr_int (Z.of_nat (length cards))).
  destruct (Numeral.repr_int_decimal (Z.of_nat (length cards)))
    as (Hdig & Hval & Hhead); [lia|].
  replace (Z.to_N (Z.of_nat (length cards))) with (N.of_nat (length cards))
    in Hval by lia.
  by repeat split.
Qed.

Lemma success_report_scenario :
  final (run scenario_env old_world)
  = World (out_file (final (run scenario_env old_world)))
      [lit "Assembled 3 cards into /Users/israasaleh/flashcard-system/cards/english.json"] /\
  exists bytes, out_file (final (run scenario_env old_world)) = Holds bytes.
Proof.
  destruct (success_report scenario_env old_world)
    as [(cards & bytes & count & Hb & _ & Hrun & Hcount & _)|(Hc & _)].
  - assert (length cards = 3%nat) as Hlen.
    { vm_compute in Hb. by injection Hb as <-. }
    rewrite Hlen in Hcount. rewrite Hrun, Hcount. split; [reflexivity|].
    by exists bytes.
  - vm_compute in Hc. discriminate Hc.
Defined.

(** C10 (records must be objects). When the array held by a discovered
    file has an element that is not an object, no dataset is produced; and
    when every discovered file loads to something that can be iterated, the
    loading loop ends with that element among the cards and it is the
    numbering loop that raises, a [TypeError]. *)
Theorem records_must_be_objects (e : env) (f : str) (l : list value)
    (c : value) :
  f ∈ files e -> load_json e f = Ok (VList l) -> c ∈ l -> is_dict c = false ->
  (forall cards, build_cards e <> Ok cards) /\
  ((forall g, g ∈ files e ->
      exists v xs, load_json e g = Ok v /\ iter v = Ok xs) ->
   exists cs,
     load_sections e [] (files e) = Ok cs /\ c ∈ cs /\
     renumber 1 cs = Raise TypeError /\
     build_cards e = Raise TypeError).
Proof.
  intros Hf Hv Hc Hnd. split.
  - destruct (Run.non_dict_fails e f (VList l) c l Hf Hv eq_refl Hc Hnd)
      as (x & Hx & _).
    intros cards. by rewrite Hx.
  - intros Hall.
    destruct (Loops.load_total e [] (files e) Hall) as [cs Hcs].
    assert (c ∈ cs) as Hin
      by (by apply (Loops.load_elements e [] cs (files e) f (VList l) l)).
    pose proof (Loops.renumber_non_dict 1 cs c Hin Hnd) as Hr.
    exists cs. repeat split; try done.
    unfold build_cards. by rewrite Hcs.
Qed.

Lemma records_must_be_objects_witness :
  is_dict (VStr (lit "comer")) = false /\
  run string_card_env old_world = Outcome 1 (Some TypeError) old_world.
Proof.
  split; [reflexivity|].
  destruct (records_must_be_objects string_card_env
              (section_path (lit "sec_01.json"))
              [VDict [(lit "term", VStr (lit "hablar"))]; VStr (lit "comer")]
              (VStr (lit "comer"))) as [_ H].
  - rewrite Run.files_string_card_env. left.
  - vm_compute. reflexivity.
  - right. left.
  - reflexivity.
  - destruct H as (cs & _ & _ & _ & Hb).
    + rewrite Run.files_string_card_env. intros g Hg.
      apply list_elem_of_singleton in Hg as ->.
      eexists _, _. split; vm_compute; reflexivity.
    + rewrite Run.run_eq, Hb. reflexivity.
Defined.

(** * Further properties of the build *)


(** X1 (the first file that does not load). When a discovered file cannot
    be opened or parsed and every file before it in discovery order loaded
    to something iterable, the run ends with status 1 on that file's
    exception; the files after it play no part, and the destination and
    the output are left as they were. *)
Theorem first_failing_file (e : env) (w : world) (pre post : list str)
    (f : str) (x : exn) :
  files e = pre ++ f :: post ->
  (forall g, g ∈ pre -> exists v xs, load_json e g = Ok v /\ iter v = Ok xs) ->
  load_json e f = Raise x ->
  run e w = Outcome 1 (Some x) w.
Proof.
  intros Hfiles Hpre Hf. rewrite Run.run_eq. unfold build_cards.
  rewrite Hfiles, (More.load_first_failure e [] pre post f x Hpre Hf). done.
Qed.

Lemma first_failing_file_witness :
  load_json unreadable_env (section_path (lit "sec_01.json"))
  = Raise JSONDecodeError /\
  run unreadable_env old_world = Outcome 1 (Some JSONDecodeError) old_world.
Proof.
  split; [reflexivity|].
  apply (first_failing_file unreadable_env old_world []
           [section_path (lit "sec_02.json")]
           (section_path (lit "sec_01.json")) JSONDecodeError).
  - exact More.files_unreadable_env.
  - intros g Hg. by apply not_elem_of_nil in Hg.
  - reflexivity.
Defined.

(** X2 (when the build succeeds). A dataset is produced exactly when every
    discovered file loads to an array of objects, to the empty object or
    to the empty string. *)
Theorem build_succeeds_iff (e : env) :
  (exists cards, build_cards e = Ok cards) <->
  (forall f, f ∈ files e ->
     (exists p, load_json e f = Ok (records p)) \/
     load_json e f = Ok (VDict []) \/
     load_json e f = Ok (VStr [])).
Proof.
  split.
  - intros [cards H]. by apply (More.shapes_of_build e cards).
  - unfold build_cards. intros H.
    destruct (Loops.load_total e [] (files e)) as [cs E].
    { intros g Hg. destruct (H g Hg) as [[p ->]| [-> | ->]]; by eexists _, _. }
    rewrite E. simpl.
    destruct (More.all_dicts cs) as [ds ->].
    { intros c Hc.
      destruct (More.load_origin e [] cs (files e) E c Hc)
        as [Hin|(f & v & xs & Hf & Hv & Hxs & Hin)].
      { by apply not_elem_of_nil in Hin. }
      destruct (H f Hf) as [[p Hp]| [Hp | Hp]];
        rewrite Hp in Hv; simplify_eq; simpl in Hxs; simplify_eq.
      - by apply (More.dicts_are_dicts p).
      - by apply not_elem_of_nil in Hin.
      - by apply not_elem_of_nil in Hin. }
    rewrite Loops.renumber_dicts. by eexists.
Qed.

(** X3 (a destination that cannot be opened). When the destination cannot
    be opened for writing, the run ends with status 1, prints nothing and
    leaves the destination as it was; if the dataset was built, the
    exception is the [OSError] of [open]. *)
Theorem unwritable_destination (e : env) (w : world) :
  out_openable e = false ->
  exit_code (run e w) = 1%Z /\
  final (run e w) = w /\
  (forall cards, build_cards e = Ok cards -> raised (run e w) = Some OSError).
Proof.
  intros H. rewrite Run.run_eq, H.
  destruct (build_cards e); [|done].
  repeat split; done.
Qed.

Lemma unwritable_destination_witness :
  out_openable readonly_env = false /\
  final (run readonly_env old_world) = old_world /\
  raised (run readonly_env old_world) = Some OSError.
Proof.
  split; [reflexivity|].
  destruct (unwritable_destination readonly_env old_world eq_refl)
    as (_ & Hw & Hx).
  split; [exact Hw|]. eapply Hx. vm_compute. reflexivity.
Defined.

(** X4 (building from the output). When the dataset a build produced is
    the array held by the only section file of another build, that build
    produces the same dataset again. *)
Theorem rebuild_from_output (e e' : env) (cards : list value) (f : str) :
  build_cards e = Ok cards ->
  files e' = [f] -> load_json e' f = Ok (VList cards) ->
  build_cards e' = Ok cards.
Proof.
  unfold build_cards. intros H Hfiles Hf.
  destruct (load_sections e [] (files e)) as [cs|]; simpl in H; [|done].
  rewrite Hfiles. simpl. rewrite Hf. simpl.
  by apply (More.renumber_again 1 cs).
Qed.

Lemma rebuild_from_output_witness :
  build_cards rebuilt_env = build_cards scenario_env.
Proof.
  assert (build_cards scenario_env
          = Ok [VDict [(lit "term", VStr (lit "hablar")); (lit "id", VInt 1)];
                VDict [(lit "term", VStr (lit "comer")); (lit "id", VInt 2)];
                VDict [(lit "term", VStr (lit "vivir")); (lit "id", VInt 3)]])
    as H by (vm_compute; reflexivity).
  rewrite H.
  apply (rebuild_from_output scenario_env rebuilt_env _
           (section_path (lit "sec_01.json")) H More.files_rebuilt_env).
  vm_compute. reflexivity.
Defined.


(** X5 (only the section files matter). Two directories with the same
    entries named [sec_*.json], whatever else they hold and in whatever
    order, whose section files load alike give the same dataset: no other
    entry is ever opened. *)
Theorem only_sections_matter (e1 e2 : env) :
  filter (fun n => fnmatch (lit "sec_*.json") n = true) (entries e1)
  ≡ₚ filter (fun n => fnmatch (lit "sec_*.json") n = true) (entries e2) ->
  (forall n, n ∈ entries e1 -> section_name n ->
     load_json e1 (section_path n) = load_json e2 (section_path n)) ->
  build_cards e1 = build_cards e2.
Proof.
  intros Hdir Hload. unfold build_cards.
  rewrite <- (Frame.files_sections e1 e2 Hdir).
  rewrite (More.load_ext_on e1 e2 [] (files e1)); [done|].
  intros f (n & Hn & Hs & ->)%Frame.files_elem. by apply Hload.
Qed.

Lemma only_sections_matter_witness :
  entries cluttered_env
  = [lit ".sec_00.json"; lit "sec_02.json"; lit "english.json";
     lit "sec_01.json"; lit "sec_03.txt"] /\
  build_cards scenario_env = build_cards cluttered_env.
Proof.
  split; [reflexivity|].
  apply (only_sections_matter scenario_env cluttered_env).
  - rewrite Frame.sections_cluttered_env. reflexivity.
  - rewrite Frame.entries_scenario_env. intros n Hn _.
    apply elem_of_cons in Hn as [->|Hn]; [vm_compute; reflexivity|].
    apply list_elem_of_singleton in Hn as ->. vm_compute. reflexivity.
Defined.

(** X6 (the output is not an input). Whatever the sections directory
    holds, every file discovered lies in it and the destination is never
    among the files discovered. *)
Theorem output_is_not_input (e : env) :
  (forall f, f ∈ files e -> exists n, f = base ++ lit "/" ++ n) /\
  out ∉ files e.
Proof.
  split.
  - intros f (n & _ & _ & ->)%Frame.files_elem. by exists n.
  - intros (n & _ & _ & H)%Frame.files_elem.
    unfold section_path in H. vm_compute in H. discriminate H.
Qed.

Module Numbered.

Lemma lt_app_same_length (a b s : str) :
  length a = length b -> str_lt (a ++ s) (b ++ s) = str_lt a b.
Proof.
  revert b. induction a as [|x a IH]; intros [|y b] Hlen; simpl in *; try done.
  - apply StrOrder.lt_irrefl.
  - destruct (x <? y); [done|]. destruct (y <? x); [done|].
    apply IH. by injection Hlen.
Qed.

Lemma value_acc (s : str) (acc : N) :
  fold_left (fun acc c => 10 * acc + (c - 48)) s acc
  = acc * 10 ^ N.of_nat (length s) + digits_value s.
Proof.
  unfold digits_value. revert acc.
  induction s as [|c s IH]; intros acc.
  - simpl. lia.
  - cbn [fold_left length]. rewrite IH, (IH (10 * 0 + (c - 48))).
    rewrite Nat2N.inj_succ, N.pow_succ_r'. lia.
Qed.

Lemma value_cons (c : char) (s : str) :
  digits_value (c :: s) = (c - 48) * 10 ^ N.of_nat (length s) + digits_value s.
Proof.
  unfold digits_value at 1. cbn [fold_left]. rewrite value_acc. lia.
Qed.

Lemma value_bound (s : str) :
  forallb is_digit s = true -> digits_value s < 10 ^ N.of_nat (length s).
Proof.
  induction s as [|c s IH]; [done|].
  cbn [forallb]. rewrite andb_true_iff. intros [Hc Hs].
  unfold is_digit in Hc. rewrite andb_true_iff, !N.leb_le in Hc.
  rewrite value_cons. cbn [length]. rewrite Nat2N.inj_succ, N.pow_succ_r'.
  specialize (IH Hs). nia.
Qed.

(** On digit strings of one length the order of [str] is that of the
    numbers. *)
Lemma lt_digits (a b : str) :
  forallb is_digit a = true -> forallb is_digit b = true ->
  length a = length b ->
  str_lt a b = true <-> digits_value a < digits_value b.
Proof.
  revert b. induction a as [|x a IH]; intros [|y b]; try done.
  cbn [forallb length]. rewrite !andb_true_iff.
  intros [Hx Ha] [Hy Hb] [= Hlen].
  unfold is_digit in Hx, Hy. rewrite andb_true_iff, !N.leb_le in Hx, Hy.
  rewrite !value_cons, <- Hlen. cbn [str_lt].
  pose proof (value_bound a Ha) as Hba.
  pose proof (value_bound b Hb) as Hbb. rewrite <- Hlen in Hbb.
  destruct (N.ltb_spec x y) as [Hxy|Hxy]; [split; [intros _; nia|done]|].
  destruct (N.ltb_spec y x) as [Hyx|Hyx]; [split; [done|nia]|].
  assert (x = y) as -> by lia. rewrite (IH b Ha Hb Hlen). lia.
Qed.

End Numbered.

(** X7 (numbered sections). Between two section files named [sec_] and a
    number written with the same count of digits, the order discovery
    sorts by is the order of the numbers. *)
Theorem padded_numbers_sort_numerically (a b : str) :
  forallb is_digit a = true -> forallb is_digit b = true ->
  length a = length b ->
  str_le (section_path (numbered_section a)) (section_path (numbered_section b))
  <-> digits_value a <= digits_value b.
Proof.
  intros Ha Hb Hlen. unfold str_le, section_path, numbered_section.
  rewrite !(app_assoc base), !(app_assoc _ (lit "sec_")).
  rewrite StrOrder.lt_app, Numbered.lt_app_same_length by done.
  pose proof (Numbered.lt_digits b a Hb Ha (eq_sym Hlen)) as H.
  destruct (str_lt b a); [|lia].
  split; [done|]. intros Hle. apply proj1 in H. specialize (H eq_refl). lia.
Qed.

Lemma padded_numbers_sort_numerically_witness :
  str_le (section_path (numbered_section (lit "02")))
         (section_path (numbered_section (lit "10"))) /\
  str_le (section_path (numbered_section (lit "10")))
         (section_path (numbered_section (lit "2"))).
Proof.
  split; [|reflexivity].
  apply (padded_numbers_sort_numerically (lit "02") (lit "10"));
    [reflexivity..|]. vm_compute. discriminate.
Defined.

(** * Strings in the dump *)

Module Escape.

(** A character that [ESCAPE] does not match is written as it is. *)
Lemma plain (c : char) :
  32 <= c -> c <> 34 -> c <> 92 -> escape_char c = [c].
Proof.
  intros H1 H2 H3. unfold escape_char.
  assert (forall k, c <> k -> (c =? k) = false) as E
    by (intros k Hk; by apply N.eqb_neq).
  rewrite !E by lia. by rewrite (proj2 (N.ltb_ge c 32)) by lia.
Qed.

Lemma below_32 (c : char) :
  c < 32 ->
  c = 0 \/ c = 1 \/ c = 2 \/ c = 3 \/ c = 4 \/ c = 5 \/ c = 6 \/ c = 7 \/
  c = 8 \/ c = 9 \/ c = 10 \/ c = 11 \/ c = 12 \/ c = 13 \/ c = 14 \/
  c = 15 \/ c = 16 \/ c = 17 \/ c = 18 \/ c = 19 \/ c = 20 \/ c = 21 \/
  c = 22 \/ c = 23 \/ c = 24 \/ c = 25 \/ c = 26 \/ c = 27 \/ c = 28 \/
  c = 29 \/ c = 30 \/ c = 31.
Proof. lia. Qed.

Lemma unescape_head_escape (c : char) (rest : str) :
  unescape_head (escape_char c ++ rest) = Some (c, rest).
Proof.
  destruct (N.ltb_spec c 32) as [Hlt|Hge].
  - apply below_32 in Hlt.
    repeat (destruct Hlt as [->|Hlt]; [reflexivity|]). by subst.
  - destruct (N.eqb_spec c 34) as [->|H34]; [reflexivity|].
    destruct (N.eqb_spec c 92) as [->|H92]; [reflexivity|].
    rewrite plain by done. simpl.
    destruct c as [|p]; [lia|].
    repeat (destruct p as [p|p|]; try reflexivity; try lia).
Qed.

Lemma flat_map_escape_inj (s1 s2 : str) :
  flat_map escape_char s1 = flat_map escape_char s2 -> s1 = s2.
Proof.
  revert s2. induction s1 as [|c1 s1 IH]; intros [|c2 s2]; simpl; try done.
  - intros H. pose proof (unescape_head_escape c2 (flat_map escape_char s2)) as E.
    by rewrite <- H in E.
  - intros H. pose proof (unescape_head_escape c1 (flat_map escape_char s1)) as E.
    by rewrite H in E.
  - intros H.
    pose proof (unescape_head_escape c1 (flat_map escape_char s1)) as E1.
    pose proof (unescape_head_escape c2 (flat_map escape_char s2)) as E2.
    rewrite H, E2 in E1. injection E1 as -> Hrest.
    f_equal. apply IH. done.
Qed.

Lemma escape_char_printable (c : char) :
  Forall (fun x => 32 <= x) (escape_char c).
Proof.
  destruct (N.ltb_spec c 32) as [Hlt|Hge].
  - apply below_32 in Hlt.
    repeat (destruct Hlt as [->|Hlt];
            [vm_compute; repeat constructor; discriminate|]).
    subst. vm_compute. repeat constructor; discriminate.
  - destruct (N.eqb_spec c 34) as [->|H34];
      [repeat constructor; discriminate|].
    destruct (N.eqb_spec c 92) as [->|H92];
      [repeat constructor; discriminate|].
    rewrite plain by done. by repeat constructor.
Qed.

End Escape.

(** X8 (strings are written as they are). A string without control
    characters, double quotes or backslashes is written between two double
    quotes exactly as it is, whatever other characters it has: letters
    outside ASCII are not escaped. *)
Theorem strings_written_verbatim (s : str) :
  Forall (fun c => 32 <= c /\ c <> 34 /\ c <> 92) s ->
  encode_basestring s = 34 :: s ++ [34].
Proof.
  intros H. unfold encode_basestring. simpl. do 2 f_equal.
  induction H as [|c s (H1 & H2 & H3) _ IH]; simpl; [done|].
  by rewrite Escape.plain, IH.
Qed.

Lemma strings_written_verbatim_witness :
  encode_basestring (lit "ense" ++ [241] ++ lit "ar")
  = 34 :: (lit "ense" ++ [241] ++ lit "ar") ++ [34].
Proof.
  apply (strings_written_verbatim (lit "ense" ++ [241] ++ lit "ar")).
  repeat constructor; discriminate.
Defined.

(** X9 (escaping loses nothing). The text written for a string holds no
    control character, and two strings written alike are the same
    string. *)
Theorem escaping_is_faithful :
  (forall s, Forall (fun c => 32 <= c) (encode_basestring s)) /\
  (forall s1 s2, encode_basestring s1 = encode_basestring s2 -> s1 = s2).
Proof.
  split.
  - intros s. unfold encode_basestring.
    apply Forall_app. split; [by repeat constructor|].
    apply Forall_app. split; [|by repeat constructor].
    induction s as [|c s IH]; simpl; [constructor|].
    apply Forall_app. split; [apply Escape.escape_char_printable|done].
  - intros s1 s2 H. unfold encode_basestring in H.
    injection H as H. apply app_inv_tail in H.
    by apply Escape.flat_map_escape_inj.
Qed.

(** * The conjugation tables *)

Module Conj.

(** Looking a key up in a dictionary written out in full. *)
Ltac lookups :=
  unfold form, ar_conj, er_conj, ir_conj; cbn [dict_get];
  repeat (case_decide; simplify_eq; cbn [dict_get]; try done).

Lemma form_prefix (conj : str -> value) (root tense person : str) :
  conj = ar_conj \/ conj = er_conj \/ conj = ir_conj ->
  form (conj root) tense person
  = option_map (app root) (form (conj []) tense person).
Proof. intros [->|[->| ->]]; lookups. Qed.

Lemma form_keys (conj : str -> value) (root tense person : str) :
  conj = ar_conj \/ conj = er_conj \/ conj = ir_conj ->
  is_Some (form (conj root) tense person)
  <-> tense ∈ tenses /\ person ∈ persons.
Proof.
  unfold tenses, persons. rewrite !elem_of_cons, !elem_of_nil.
  intros [->|[->| ->]]; lookups;
    (split; [intros Hs|intros [Ht Hp]]);
    first [ by (split; auto 10)
          | by eexists
          | by destruct Hs as [? [=]]
          | exfalso; intuition congruence ].
Qed.

End Conj.

(** X10 (a root and its endings). In each of the three tables every form
    is the root followed by an ending that does not depend on the root:
    looking a form up for [root] gives [root] followed by what the same
    lookup gives for the empty root. *)
Theorem endings_do_not_depend_on_root (root tense person : str) :
  form (ar_conj root) tense person
  = option_map (app root) (form (ar_conj []) tense person) /\
  form (er_conj root) tense person
  = option_map (app root) (form (er_conj []) tense person) /\
  form (ir_conj root) tense person
  = option_map (app root) (form (ir_conj []) tense person).
Proof. split; [|split]; apply Conj.form_prefix; auto. Qed.

(** X11 (the shape of a table). Each of the three tables has a form
    exactly for the tenses [present], [preterite], [imperfect] and the
    persons [yo], [tú], [él], [nosotros], [vosotros], [ellos]; any other
    tense or person has none. *)
Theorem table_shape (root tense person : str) :
  (is_Some (form (ar_conj root) tense person)
   <-> tense ∈ tenses /\ person ∈ persons) /\
  (is_Some (form (er_conj root) tense person)
   <-> tense ∈ tenses /\ person ∈ persons) /\
  (is_Some (form (ir_conj root) tense person)
   <-> tense ∈ tenses /\ person ∈ persons).
Proof. split; [|split]; apply Conj.form_keys; auto. Qed.

(** X12 ([-er] and [-ir] verbs). The tables of [er_conj] and [ir_conj]
    for one root agree on every form except the [nosotros] and [vosotros]
    forms of the present, where they differ. *)
Theorem er_ir_agree (root tense person : str) :
  (form (er_conj root) tense person = form (ir_conj root) tense person
   <-> ~ (tense = lit "present" /\
          (person = lit "nosotros" \/ person = lit "vosotros"))).
Proof.
  split.
  - intros Heq [-> [-> | ->]]; revert Heq; Conj.lookups;
      intros [= Heq]; apply app_inv_head in Heq; discriminate Heq.
  - intros Hnot. Conj.lookups; exfalso; apply Hnot; auto.
Qed.

(** X13 (the dataset of any build). Whenever a dataset is produced, each
    discovered file contributes some records (those of its array, or none
    when it holds the empty object or the empty string) and the dataset is
    these records in discovery order, each with its position as [id]. *)
Theorem dataset_of_any_build (e : env) (cards : list value) :
  build_cards e = Ok cards ->
  exists ps, Forall2 (contributes e) (files e) ps /\ cards = numbered ps.
Proof.
  intros H.
  destruct (More.shapes_contribute e (files e) (More.shapes_of_build e cards H))
    as [ps Hps].
  exists ps. split; [done|].
  unfold build_cards in H.
  rewrite (More.load_contributions e [] (files e) ps Hps) in H. simpl in H.
  rewrite Loops.renumber_dicts in H. injection H as <-.
  unfold numbered. apply imap_ext. intros i d _. simpl. do 3 f_equal. lia.
Qed.

Lemma dataset_of_any_build_witness :
  Forall2 (contributes mixed_env) (files mixed_env)
    [[]; partition_B; partition_A] /\
  exists ps,
    Forall2 (contributes mixed_env) (files mixed_env) ps /\
    [VDict [(lit "term", VStr (lit "comer")); (lit "id", VInt 1)];
     VDict [(lit "term", VStr (lit "vivir")); (lit "id", VInt 2)];
     VDict [(lit "term", VStr (lit "hablar")); (lit "id", VInt 3)]]
    = numbered ps.
Proof.
  split.
  - assert (files mixed_env
            = [section_path (lit "sec_01.json");
               section_path (lit "sec_02.json");
               section_path (lit "sec_03.json")]) as ->
      by (vm_compute; reflexivity).
    constructor.
    { right. split; [reflexivity|]. left. vm_compute. reflexivity. }
    constructor; [left; vm_compute; reflexivity|].
    constructor; [left; vm_compute; reflexivity|].
    constructor.
  - apply (dataset_of_any_build mixed_env). vm_compute. reflexivity.
Defined.
